(** * fbmeshd: gateway connectivity monitor, mesh path entries and the
      path dump of the mesh service handler

    A shallow embedding of
    - [fbmeshd/gateway-connectivity-monitor/GatewayConnectivityMonitor.cpp],
    - [Routing::MeshPath] of [fbmeshd/routing/Routing.h],
    - [MeshServiceHandler::dumpMpath] of [fbmeshd/MeshServiceHandler.h],
    and the properties of these that the design document states. *)

From Stdlib Require Import ZArith String Ascii List Lia Bool QArith.
From stdpp Require Import base gmap strings list.

(** * Mesh paths *)

Module Routing.

(** [folly::MacAddress] is not part of this repository.  A MAC address is
    identified by the value of its [u64NBO()] accessor, the only thing the
    code below reads from it; the default-constructed address is the
    all-zero one. *)
Record MacAddress := { u64NBO : Z }.

Definition MacAddress_default : MacAddress := {| u64NBO := 0 |}.

#[global] Instance MacAddress_eq_dec : EqDecision MacAddress.
Proof. solve_decision. Defined.

#[global] Instance MacAddress_countable : Countable MacAddress :=
  inj_countable' u64NBO Build_MacAddress (fun m => match m with Build_MacAddress _ => eq_refl end).

(** [std::chrono::steady_clock::time_point]: a signed 64-bit count of
    nanoseconds.  The clock is read where the source calls [now()]; the
    reading is an argument of the model. *)
Definition time_point : Type := Z.

(** [struct MeshPath].  [sn] is a [uint64_t], [metric] and [nextHopMetric]
    are [uint32_t], [hopCount] is a [uint8_t]. *)
Record MeshPath := {
  dst : MacAddress;
  nextHop : MacAddress;
  sn : Z;
  metric : Z;
  nextHopMetric : Z;
  hopCount : Z;
  expTime : time_point;
  isRoot : bool;
  isGate : bool
}.

(** [explicit MeshPath(folly::MacAddress _dst)] with the default member
    initializers; [now] is the clock reading taken by the initializer of
    [expTime]. *)
Definition newMeshPath (now : time_point) (_dst : MacAddress) : MeshPath :=
  {| dst := _dst;
     nextHop := MacAddress_default;
     sn := 0;
     metric := 0;
     nextHopMetric := 0;
     hopCount := 0;
     expTime := now;
     isRoot := false;
     isGate := false |}.

(** [MeshPath(const MeshPath& other)]: the member initializer list names
    every member, so no default member initializer (in particular not the
    clock reading of [expTime]) is evaluated. *)
Definition copyMeshPath (other : MeshPath) : MeshPath :=
  {| dst := dst other;
     nextHop := nextHop other;
     sn := sn other;
     metric := metric other;
     nextHopMetric := nextHopMetric other;
     hopCount := hopCount other;
     expTime := expTime other;
     isRoot := isRoot other;
     isGate := isGate other |}.

(** [MeshPath::expired()]: [steady_clock::now() > expTime]. *)
Definition expired (now : time_point) (p : MeshPath) : bool :=
  (now >? expTime p)%Z.

(** The part of the routing engine's state read here. *)
Record State := { meshPaths_ : gmap MacAddress MeshPath }.

(** Modelled from the spec: the path table's [getOrInsert] (the body of
    [Routing::getMeshPath] is in [Routing.cpp], which is not among the
    sources) returns the existing entry or a freshly constructed one, which
    it inserts. *)
Definition getOrInsert (now : time_point) (mac : MacAddress) (r : State)
  : MeshPath * State :=
  match meshPaths_ r !! mac with
  | Some p => (p, r)
  | None =>
      let p := newMeshPath now mac in
      (p, {| meshPaths_ := <[mac := p]> (meshPaths_ r) |})
  end.

(** Modelled from the spec: [Routing::dumpMpaths] (body in [Routing.cpp])
    returns a by-value snapshot of the path table. *)
Definition dumpMpaths (r : State) : gmap MacAddress MeshPath := meshPaths_ r.

End Routing.

(** * The path dump of the mesh service handler *)

Module thrift.

(** [thrift::MpathEntry], generated from the interface definition, which is
    not among the sources.  The fields are in the order of the arguments of
    the fragile constructor and hold the values passed to it.  The integer
    fields of a generated struct are signed: what a 64-bit one reads for an
    unsigned argument is [MeshServiceHandler.to_int64] of the value held
    here. *)
Record MpathEntry := {
  dst : Z;
  nextHop : Z;
  sn : Z;
  metric : Z;
  expTimeRemainingMs : Z;
  nextHopMetric : Z;
  hopCount : Z;
  isRoot : bool;
  isGate : bool
}.

(** [thrift::StatCounter], built in [dumpStats] from a key and a value. *)
Record StatCounter := { key : string; value : Z }.

(** [thrift::MeshServiceError], built from a message. *)
Record MeshServiceError := { message : string }.

End thrift.

Module MeshServiceHandler.

Import Routing.

(** [static_cast<uint64_t>] of a signed 64-bit value. *)
Definition to_uint64 (x : Z) : Z := (x mod 2 ^ 64)%Z.

(** [duration_cast<milliseconds>(d).count()] of a nanosecond duration:
    integer division truncating toward zero. *)
Definition to_milliseconds (d : Z) : Z := (d ÷ 1000000)%Z.

(** The value a 64-bit unsigned integer has when read as a signed one
    (Thrift's integer types are signed). *)
Definition to_int64 (x : Z) : Z := ((x + 2 ^ 63) mod 2 ^ 64 - 2 ^ 63)%Z.

(** The fifth constructor argument in [dumpMpath]:
    [std::max(static_cast<uint64_t>(0),
              static_cast<uint64_t>(duration_cast<milliseconds>(
                  expTime - now).count()))]. *)
Definition expTimeArgument (exp now : time_point) : Z :=
  Z.max (to_uint64 0) (to_uint64 (to_milliseconds (exp - now))).

Definition mkEntry (now : time_point) (it : MacAddress * MeshPath)
  : thrift.MpathEntry :=
  {| thrift.dst := u64NBO (fst it);
     thrift.nextHop := u64NBO (Routing.nextHop (snd it));
     thrift.sn := Routing.sn (snd it);
     thrift.metric := Routing.metric (snd it);
     thrift.expTimeRemainingMs := expTimeArgument (Routing.expTime (snd it)) now;
     thrift.nextHopMetric := Routing.nextHopMetric (snd it);
     thrift.hopCount := Routing.hopCount (snd it);
     thrift.isRoot := Routing.isRoot (snd it);
     thrift.isGate := Routing.isGate (snd it) |}.

(** The loop of [dumpMpath] over the snapshot in iteration order.  The clock
    is read once per row: [clock i] is the reading for the [i]-th row. *)
Fixpoint dumpLoop (clock : nat -> time_point) (i : nat)
    (mpaths : list (MacAddress * MeshPath)) (ret : list thrift.MpathEntry)
  : list thrift.MpathEntry :=
  match mpaths with
  | [] => ret
  | it :: rest => dumpLoop clock (S i) rest (ret ++ [mkEntry (clock i) it])
  end.

(** [dumpMpath(ret)]; [routing_] is [None] for a null pointer. *)
Definition dumpMpath (routing_ : option Routing.State)
    (clock : nat -> time_point) (ret : list thrift.MpathEntry)
  : list thrift.MpathEntry :=
  match routing_ with
  | None => ret
  | Some r => dumpLoop clock 0 (map_to_list (dumpMpaths r)) ret
  end.

(** The loop of [dumpStats] over [statsClient_.getStats()], taken as the
    list of its (key, value) pairs in iteration order. *)
Fixpoint dumpStats (stats : list (string * Z)) (ret : list thrift.StatCounter)
  : list thrift.StatCounter :=
  match stats with
  | [] => ret
  | it :: rest =>
      dumpStats rest
        (ret ++ [ {| thrift.key := fst it; thrift.value := snd it |} ])
  end.

(** What running a netlink callback on the event loop can do: return its
    success flag, having left a value in [tempRet], or throw a
    [std::exception] with some message. *)
Inductive Outcome (T : Type) : Type :=
| Completed (success : bool) (tempRet : T)
| Thrown (what : string).

Arguments Completed {T} success tempRet.
Arguments Thrown {T} what.

(** [serviceFunc].  The closure handed to [runInEventLoop] runs once and the
    caller blocks on the future, so the call is the closure followed by the
    caller's [try] block.  [tempRet0] is a default-constructed
    [_returnType]; the result is [returnVal] after the call and the
    exception the call leaves with, if any. *)
Definition serviceFunc {T : Type} (tempRet0 : T) (returnVal : T)
    (ifName : string) (nlhfp : string -> T -> Outcome T) (errMsg : string)
  : T * option thrift.MeshServiceError :=
  let future : T + string :=
    match nlhfp ifName tempRet0 with
    | Completed true tempRet => inl tempRet
    | Completed false _ => inr errMsg
    | Thrown what => inr what
    end in
  match future with
  | inl result => (result, None)
  | inr _ => (returnVal, Some {| thrift.message := errMsg |})
  end.

(** [getPeers].  [toString] is [folly::MacAddress::toString];
    [nlGetPeers] is what [nlHandler_.getPeers()] does: it returns the peers
    or throws. *)
Definition getPeers (toString : MacAddress -> string)
    (nlGetPeers : list MacAddress + string)
    (returnVal : list string) (ifName : string)
  : list string * option thrift.MeshServiceError :=
  serviceFunc [] returnVal ifName
    (fun _ tempRet =>
       match nlGetPeers with
       | inl peers =>
           Completed true
             (fold_left (fun acc peer => acc ++ [toString peer]) peers tempRet)
       | inr what => Thrown what
       end)
    "error receiving peer list from netlink".

(** A path table with one entry that expired 5 ms before the dump: the
    entry's deadline is at 1 s on the steady clock, the dump reads the clock
    at 1.005 s. *)
Definition stalePath : MeshPath :=
  {| Routing.dst := {| u64NBO := 2 |};
     Routing.nextHop := {| u64NBO := 3 |};
     Routing.sn := 7;
     Routing.metric := 10;
     Routing.nextHopMetric := 10;
     Routing.hopCount := 1;
     Routing.expTime := 1000000000%Z;
     Routing.isRoot := false;
     Routing.isGate := true |}.

Definition staleTable : Routing.State :=
  {| meshPaths_ := {[ {| u64NBO := 2 |} := stalePath ]} |}.

Definition staleClock (i : nat) : time_point := 1005000000%Z.

End MeshServiceHandler.

(** * The route dampener *)

Module RouteDampener.

(** The virtual member functions through which [RouteDampener] calls back
    into the class derived from it. *)
Inductive Hook : Type :=
| CallDampen
| CallUndampen
| CallSetStat (path : string) (value : Z).

Record Params := {
  penalty : Q;
  suppressLimit : Q;
  reuseLimit : Q;
  maxSuppressLimit : Q
}.

Record Dampener := { fom : Q; suppressed : bool }.

Definition qmin (a b : Q) : Q := if Qle_bool a b then a else b.

(** Modelled from the spec: the decay step of the dampener
    ([RouteDampener.cpp] is not among the sources).  [factor] stands for
    [0.5^(dt/halfLife)], the decay over the time elapsed since the last
    update; it is 1 when no time has elapsed. *)
Definition decay (pr : Params) (factor : Q) (d : Dampener) : Dampener :=
  {| fom := qmin (maxSuppressLimit pr) (fom d * factor);
     suppressed := suppressed d |}.

(** Modelled from the spec: [RouteDampener::flap]: decay, add the penalty
    up to the cap, and on reaching the suppress limit while not suppressed
    become suppressed and invoke the [dampen()] hook. *)
Definition flap (pr : Params) (factor : Q) (d : Dampener)
  : Dampener * list Hook :=
  let d1 := decay pr factor d in
  let f := qmin (maxSuppressLimit pr) (fom d1 + penalty pr) in
  if negb (suppressed d1) && Qle_bool (suppressLimit pr) f
  then ({| fom := f; suppressed := true |}, [CallDampen])
  else ({| fom := f; suppressed := suppressed d1 |}, []).

(** Modelled from the spec: the reuse check: decay, and on falling to the
    reuse limit while suppressed clear the flag and invoke [undampen()]. *)
Definition reuseCheck (pr : Params) (factor : Q) (d : Dampener)
  : Dampener * list Hook :=
  let d1 := decay pr factor d in
  if suppressed d1 && Qle_bool (fom d1) (reuseLimit pr)
  then ({| fom := fom d1; suppressed := false |}, [CallUndampen])
  else (d1, []).

(** Modelled from the spec: [isDampened()] reads the suppressed flag. *)
Definition isDampened (d : Dampener) : bool := suppressed d.

End RouteDampener.

(** * The gateway connectivity monitor *)

Module GatewayConnectivityMonitor.

(** [Socket::Result]: the two members the monitor reads. *)
Record Result := { success : bool; errorMsg : string }.

(** [folly::SocketAddress], as far as the monitor is concerned an opaque
    value handed to [Socket::connect]. *)
Record SocketAddress := { host : string; port : Z }.

(** Every call the monitor makes on one of its collaborators (the file
    system, the sockets, the stats client, the debug-fs writer, the netlink
    handler, the routing engine, its timer and its [RouteDampener] base) is
    recorded as an event, in call order. *)
Inductive Event : Type :=
| EvWriteFile (value path : string)
| EvScheduleTimeout (interval : Z)
| EvConnect (iface : string) (addr : SocketAddress) (timeout : Z)
| EvIncrementSumStat (key : string)
| EvSetAvgStat (key : string) (value : Z)
| EvWriteDebugStat (key value : string)
| EvSetRootMode (mode : Z)
| EvSetGatewayStatus (isGate : bool)
| EvFlap.

Export RouteDampener(Hook, CallDampen, CallUndampen, CallSetStat).

(** The constructor arguments kept in members (or captured by the timer
    callback).  [robustness_] is an [unsigned int] used only as a loop bound,
    [setRootModeIfGate_] a [uint8_t] (0..255) compared with 0, [routing_] a
    [Routing*] of which the monitor only tests whether it is null
    ([true] = non-null). *)
Record Config := {
  monitoredInterface_ : string;
  monitoredAddresses_ : list SocketAddress;
  monitorInterval : Z;
  monitorSocketTimeout_ : Z;
  robustness_ : nat;
  setRootModeIfGate_ : Z;
  routing_ : bool
}.

Definition statPathPrefix : string :=
  "fbmeshd.gateway_connectivity_monitor.".
Definition probeSuccessKey : string :=
  "fbmeshd.gateway_connectivity_monitor.probe_wan_connectivity.success".
Definition probeFailedPrefix : string :=
  "fbmeshd.gateway_connectivity_monitor.probe_wan_connectivity.failed.".
Definition rpFilterPath (iface : string) : string :=
  "/proc/sys/net/ipv4/conf/" +:+ iface +:+ "/rp_filter".
Definition rpFilterAllPath : string :=
  "/proc/sys/net/ipv4/conf/all/rp_filter".

(** ** Sample configurations *)

Definition addrA : SocketAddress := {| host := "2001:db8::a"; port := 443 |}.
Definition addrB : SocketAddress := {| host := "2001:db8::b"; port := 443 |}.

Definition refused : Result := {| success := false; errorMsg := "refused" |}.
Definition accepted : Result := {| success := true; errorMsg := EmptyString |}.
Definition emptyResult : Result := {| success := false; errorMsg := EmptyString |}.

(** Scenario S5 of the design document: two monitored addresses, three
    tries; [addrA] always refuses, [addrB] refuses in the first two probes
    and accepts in the third (the sixth connect). *)
Definition cfgS5 : Config :=
  {| monitoredInterface_ := "eth0";
     monitoredAddresses_ := [addrA; addrB];
     monitorInterval := 1;
     monitorSocketTimeout_ := 5;
     robustness_ := 3;
     setRootModeIfGate_ := 4;
     routing_ := true |}.

Definition netS5 (n : nat) (iface : string) (a : SocketAddress) (timeout : Z)
  : Result :=
  if String.eqb (host a) (host addrB) && (5 <=? n) then accepted else refused.

(** The same node without a routing engine. *)
Definition cfgNoRouting : Config :=
  {| monitoredInterface_ := "eth0";
     monitoredAddresses_ := [addrA; addrB];
     monitorInterval := 1;
     monitorSocketTimeout_ := 5;
     robustness_ := 3;
     setRootModeIfGate_ := 4;
     routing_ := false |}.

(** A node whose monitored interface is itself named "all". *)
Definition cfgAll : Config :=
  {| monitoredInterface_ := "all";
     monitoredAddresses_ := [addrA; addrB];
     monitorInterval := 1;
     monitorSocketTimeout_ := 5;
     robustness_ := 3;
     setRootModeIfGate_ := 4;
     routing_ := true |}.

(** No tries and nothing to monitor. *)
Definition cfgDegenerate : Config :=
  {| monitoredInterface_ := "eth0";
     monitoredAddresses_ := [];
     monitorInterval := 1;
     monitorSocketTimeout_ := 5;
     robustness_ := 0;
     setRootModeIfGate_ := 4;
     routing_ := true |}.

(** The dampener of scenario S4 of the design document, one flap below its
    suppress limit, flapping or checking for reuse with no time elapsed
    since its last update. *)
Definition paramsS4 : RouteDampener.Params :=
  {| RouteDampener.penalty := 1000;
     RouteDampener.suppressLimit := 2000;
     RouteDampener.reuseLimit := 500;
     RouteDampener.maxSuppressLimit := 20000 |}.

Definition oneFlapAway : RouteDampener.Dampener :=
  {| RouteDampener.fom := 1000; RouteDampener.suppressed := false |}.

Definition flapNow : RouteDampener.Dampener -> RouteDampener.Dampener * list Hook :=
  RouteDampener.flap paramsS4 1.

Definition reuseCheckNow
  : RouteDampener.Dampener -> RouteDampener.Dampener * list Hook :=
  RouteDampener.reuseCheck paramsS4 1.

(** A network on which every connect is refused, one on which every
    connect is accepted, and the S4 dampener while suppressed. *)
Definition netDown (n : nat) (iface : string) (a : SocketAddress) (timeout : Z)
  : Result := refused.

Definition netUp (n : nat) (iface : string) (a : SocketAddress) (timeout : Z)
  : Result := accepted.

Definition suppressedS4 : RouteDampener.Dampener :=
  {| RouteDampener.fom := 3000; RouteDampener.suppressed := true |}.

(** A node that neither sets the root mode nor has a routing engine. *)
Definition cfgBare : Config :=
  {| monitoredInterface_ := "eth0";
     monitoredAddresses_ := [addrA; addrB];
     monitorInterval := 1;
     monitorSocketTimeout_ := 5;
     robustness_ := 3;
     setRootModeIfGate_ := 0;
     routing_ := false |}.

Section Monitor.

(** The [RouteDampener] base class is not among the sources.  The monitor
    uses two of its members, [isDampened()] and [flap()]; they are taken as
    parameters over an arbitrary dampener state [D].  [flap] yields the new
    dampener state and the hooks it invokes, in order: the hooks are [void],
    and neither reads nor writes the dampener, so their interleaving with the
    dampener's own updates cannot be observed.  [dampenerTimer] stands for
    whatever the dampener does when one of its own timers fires. *)
Variable D : Type.
Variable isDampened : D -> bool.
Variable flap : D -> D * list Hook.
Variable dampenerTimer : D -> D * list Hook.

(** The network: the answer of the [n]-th [Socket::connect] of the process,
    given its arguments. *)
Variable net : nat -> string -> SocketAddress -> Z -> Result.

(** A default-constructed [Socket::Result] ([Socket.h] is not among the
    sources). *)
Variable defaultResult : Result.

Variable cfg : Config.

(** The mutable members of the monitor, and the number of connects made so
    far (which indexes [net]). *)
Record State := {
  isGatewayActive_ : bool;
  dampener_ : D;
  connects : nat
}.

(** A computation reads and updates the state and emits events. *)
Definition M (A : Type) : Type := State -> A * State * list Event.

Definition ret {A} (a : A) : M A := fun s => (a, s, []).

Definition bind {A B} (m : M A) (k : A -> M B) : M B :=
  fun s =>
    let '(a, s1, e1) := m s in
    let '(b, s2, e2) := k a s1 in
    (b, s2, e1 ++ e2).

Notation "x <- m ;; k" := (bind m (fun x => k))
  (at level 100, m at next level, right associativity).
Notation "m ;;; k" := (bind m (fun _ => k))
  (at level 100, right associativity).

Definition emit (e : Event) : M unit := fun s => (tt, s, [e]).

Definition result {A} (r : A * State * list Event) : A := fst (fst r).
Definition stateOf {A} (r : A * State * list Event) : State := snd (fst r).
Definition events {A} (r : A * State * list Event) : list Event := snd r.

Definition getGatewayActive : M bool := fun s => (isGatewayActive_ s, s, []).
Definition setGatewayActive (b : bool) : M unit :=
  fun s => (tt, {| isGatewayActive_ := b; dampener_ := dampener_ s;
                   connects := connects s |}, []).
Definition callIsDampened : M bool :=
  fun s => (isDampened (dampener_ s), s, []).

(** [Socket socket; socket.connect(monitoredInterface_, addr, timeout)]. *)
Definition socketConnect (addr : SocketAddress) : M Result :=
  fun s =>
    (net (connects s) (monitoredInterface_ cfg) addr (monitorSocketTimeout_ cfg),
     {| isGatewayActive_ := isGatewayActive_ s; dampener_ := dampener_ s;
        connects := S (connects s) |},
     [EvConnect (monitoredInterface_ cfg) addr (monitorSocketTimeout_ cfg)]).

(** The [for] loop of [probeWanConnectivity]: [res] is the local [result],
    the returned flag the local [connectionSucceeded]. *)
Fixpoint connectLoop (addrs : list SocketAddress) (res : Result)
  : M (Result * bool) :=
  match addrs with
  | [] => ret (res, false)
  | a :: rest =>
      r <- socketConnect a ;;
      if success r then ret (r, true) else connectLoop rest r
  end.

Definition probeWanConnectivity : M bool :=
  rc <- connectLoop (monitoredAddresses_ cfg) defaultResult ;;
  (if snd rc
   then emit (EvIncrementSumStat probeSuccessKey)
   else emit (EvIncrementSumStat (probeFailedPrefix +:+ errorMsg (fst rc)))) ;;;
  ret (snd rc).

(** The loop of [probeWanConnectivityRobustly], by the number of iterations
    still to run ([robustness_ - tryNum]). *)
Fixpoint robustLoop (n : nat) : M bool :=
  match n with
  | O => ret false
  | S n' =>
      ok <- probeWanConnectivity ;;
      if ok then ret true else robustLoop n'
  end.

Definition probeWanConnectivityRobustly : M bool :=
  robustLoop (robustness_ cfg).

Definition setStat (path : string) (value : Z) : M unit :=
  emit (EvSetAvgStat (statPathPrefix +:+ path) value).

Definition advertiseDefaultRoute : M unit :=
  (if negb (setRootModeIfGate_ cfg =? 0)%Z
   then emit (EvSetRootMode (setRootModeIfGate_ cfg)) else ret tt) ;;;
  (if routing_ cfg then emit (EvSetGatewayStatus true) else ret tt).

Definition withdrawDefaultRoute : M unit :=
  (if negb (setRootModeIfGate_ cfg =? 0)%Z
   then emit (EvSetRootMode 0) else ret tt) ;;;
  (if routing_ cfg then emit (EvSetGatewayStatus false) else ret tt).

Definition dampen : M unit :=
  active <- getGatewayActive ;;
  if active
  then emit (EvWriteDebugStat "is_gateway" "false") ;;; withdrawDefaultRoute
  else ret tt.

Definition undampen : M unit :=
  active <- getGatewayActive ;;
  if active
  then emit (EvWriteDebugStat "is_gateway" "true") ;;; advertiseDefaultRoute
  else ret tt.

Definition runHook (h : Hook) : M unit :=
  match h with
  | CallDampen => dampen
  | CallUndampen => undampen
  | CallSetStat path value => setStat path value
  end.

Fixpoint runHooks (hs : list Hook) : M unit :=
  match hs with
  | [] => ret tt
  | h :: rest => runHook h ;;; runHooks rest
  end.

(** A call into the dampener: its state is replaced and the hooks it
    invokes run on the monitor. *)
Definition callDampener (f : D -> D * list Hook) : M unit :=
  fun s =>
    let '(d, hs) := f (dampener_ s) in
    runHooks hs {| isGatewayActive_ := isGatewayActive_ s; dampener_ := d;
                   connects := connects s |}.

Definition callFlap : M unit := emit EvFlap ;;; callDampener flap.

Definition checkRoutesAndAdvertise : M unit :=
  ok <- probeWanConnectivityRobustly ;;
  if ok then
    dampened <- callIsDampened ;;
    (if negb dampened
     then emit (EvWriteDebugStat "is_gateway" "true") ;;; advertiseDefaultRoute
     else ret tt) ;;;
    active <- getGatewayActive ;;
    (if negb active then callFlap else ret tt) ;;;
    setGatewayActive true
  else
    emit (EvWriteDebugStat "is_gateway" "false") ;;;
    withdrawDefaultRoute ;;;
    setGatewayActive false.

(** The callback of [connectivityCheckTimer_]. *)
Definition timerCallback : M unit :=
  checkRoutesAndAdvertise ;;; emit (EvScheduleTimeout (monitorInterval cfg)).

(** The constructor body.  [d0] is the dampener as its own constructor
    leaves it, [active0] the initial value of [isGatewayActive_] (its
    initializer is in [GatewayConnectivityMonitor.h], not among the
    sources), [n0] the number of connects made before. *)
Definition construct (d0 : D) (active0 : bool) (n0 : nat)
  : unit * State * list Event :=
  (tt,
   {| isGatewayActive_ := active0; dampener_ := d0; connects := n0 |},
   [EvWriteFile "0" (rpFilterPath (monitoredInterface_ cfg));
    EvWriteFile "0" rpFilterAllPath;
    EvScheduleTimeout (monitorInterval cfg)]).

(** Everything that can run on a constructed monitor: its member functions,
    its timer callback, and a timer of the dampener. *)
Inductive Op : Type :=
| OpProbeWanConnectivityRobustly
| OpProbeWanConnectivity
| OpSetStat (path : string) (value : Z)
| OpDampen
| OpUndampen
| OpCheckRoutesAndAdvertise
| OpAdvertiseDefaultRoute
| OpWithdrawDefaultRoute
| OpTimerCallback
| OpDampenerTimer.

Definition step (o : Op) : M unit :=
  match o with
  | OpProbeWanConnectivityRobustly => probeWanConnectivityRobustly ;;; ret tt
  | OpProbeWanConnectivity => probeWanConnectivity ;;; ret tt
  | OpSetStat path value => setStat path value
  | OpDampen => dampen
  | OpUndampen => undampen
  | OpCheckRoutesAndAdvertise => checkRoutesAndAdvertise
  | OpAdvertiseDefaultRoute => advertiseDefaultRoute
  | OpWithdrawDefaultRoute => withdrawDefaultRoute
  | OpTimerCallback => timerCallback
  | OpDampenerTimer => callDampener dampenerTimer
  end.

Fixpoint run (ops : list Op) : M unit :=
  match ops with
  | [] => ret tt
  | o :: rest => step o ;;; run rest
  end.

(** The events of the hooks that do not depend on the monitor's state:
    those of the [setStat] calls. *)
Fixpoint hookStatEvents (hs : list Hook) : list Event :=
  match hs with
  | [] => []
  | CallSetStat path value :: rest =>
      EvSetAvgStat (statPathPrefix +:+ path) value :: hookStatEvents rest
  | _ :: rest => hookStatEvents rest
  end.

(** The netlink and routing calls of advertise/withdraw. *)
Definition rootModeEvents (mode : Z) : list Event :=
  if (setRootModeIfGate_ cfg =? 0)%Z then [] else [EvSetRootMode mode].

Definition gatewayStatusEvents (isGate : bool) : list Event :=
  if routing_ cfg then [EvSetGatewayStatus isGate] else [].

(** ** Vocabulary of the statements *)

(** The answer the network gives to a connect to [a] made as the [n]-th
    connect of the process. *)
Definition answer (n : nat) (a : SocketAddress) : Result :=
  net n (monitoredInterface_ cfg) a (monitorSocketTimeout_ cfg).

Definition connectEvent (a : SocketAddress) : Event :=
  EvConnect (monitoredInterface_ cfg) a (monitorSocketTimeout_ cfg).

Definition withConnects (s : State) (n : nat) : State :=
  {| isGatewayActive_ := isGatewayActive_ s; dampener_ := dampener_ s;
     connects := n |}.

(** The answer to the connect to the last of [addrs], when all of them are
    tried starting with connect number [n]; [res] if there is none. *)
Definition lastAnswer (n : nat) (addrs : list SocketAddress) (res : Result)
  : Result :=
  match last addrs with
  | Some a => answer (n + (length addrs - 1)) a
  | None => res
  end.

(** The state after [k] calls of [probeWanConnectivity] in sequence, and
    the events of these calls. *)
Definition afterProbes (k : nat) (s : State) : State :=
  Nat.iter k (fun s' => stateOf (probeWanConnectivity s')) s.

Fixpoint probesEvents (k : nat) (s : State) : list Event :=
  match k with
  | O => []
  | S k' =>
      probesEvents k' s ++ events (probeWanConnectivity (afterProbes k' s))
  end.

Definition isConnect (e : Event) : bool :=
  match e with EvConnect _ _ _ => true | _ => false end.

Definition isStat (e : Event) : bool :=
  match e with
  | EvIncrementSumStat _ | EvSetAvgStat _ _ => true
  | _ => false
  end.

Definition isProbeSuccessIncrement (e : Event) : bool :=
  match e with
  | EvIncrementSumStat key => bool_decide (key = probeSuccessKey)
  | _ => false
  end.

Definition isProbeFailureIncrement (e : Event) : bool :=
  match e with
  | EvIncrementSumStat key => String.prefix probeFailedPrefix key
  | _ => false
  end.

Definition isWriteFile (e : Event) : bool :=
  match e with EvWriteFile _ _ => true | _ => false end.

Abbreviation noWrite := (Forall (fun e => isWriteFile e = false)).

Definition isWriteTo (path : string) (e : Event) : bool :=
  match e with
  | EvWriteFile _ path' => bool_decide (path' = path)
  | _ => false
  end.

(** The state in which [flap()] runs its hooks during a connectivity check
    started in [s]: the probes are done, the dampener has been updated, and
    [isGatewayActive_] has not been assigned yet. *)
Definition stateAtFlap (s : State) : State :=
  {| isGatewayActive_ := isGatewayActive_ s;
     dampener_ := fst (flap (dampener_ s));
     connects := connects (stateOf (probeWanConnectivityRobustly s)) |}.

(** The calls that change what the node announces about its gateway role:
    the root mode, the routing engine's gateway status and the "is_gateway"
    debug stat. *)
Definition isRouteEvent (e : Event) : bool :=
  match e with
  | EvSetRootMode _ | EvSetGatewayStatus _ | EvWriteDebugStat _ _ => true
  | _ => false
  end.

Definition isFlap (e : Event) : bool :=
  match e with EvFlap => true | _ => false end.

Definition isScheduleTimeout (e : Event) : bool :=
  match e with EvScheduleTimeout _ => true | _ => false end.

Definition isRootMode (e : Event) : bool :=
  match e with EvSetRootMode _ => true | _ => false end.

Definition isGatewayStatus (e : Event) : bool :=
  match e with EvSetGatewayStatus _ => true | _ => false end.

(** Among [n] consecutive timer callbacks started in [s], the number of
    those that find the gateway inactive and leave it active. *)
Fixpoint activations (n : nat) (s : State) : nat :=
  match n with
  | O => 0
  | S n' =>
      let s' := stateOf (timerCallback s) in
      (if negb (isGatewayActive_ s) && isGatewayActive_ s' then 1 else 0)
      + activations n' s'
  end.

(** The argument of the last [setGatewayStatus] call among the events. *)
Fixpoint lastGatewayStatus (evs : list Event) : option bool :=
  match evs with
  | [] => None
  | e :: rest =>
      match lastGatewayStatus rest with
      | Some g => Some g
      | None =>
          match e with EvSetGatewayStatus g => Some g | _ => None end
      end
  end.

(** The calls a constructed monitor with configuration [cfg] can make. *)
Inductive MonitorEvent : Event -> Prop :=
| MeConnect (a : SocketAddress) :
    In a (monitoredAddresses_ cfg) -> MonitorEvent (connectEvent a)
| MeProbeSuccess : MonitorEvent (EvIncrementSumStat probeSuccessKey)
| MeProbeFailed (msg : string) :
    MonitorEvent (EvIncrementSumStat (probeFailedPrefix +:+ msg))
| MeSetStat (path : string) (value : Z) :
    MonitorEvent (EvSetAvgStat (statPathPrefix +:+ path) value)
| MeIsGateway (v : string) :
    v = "true"%string \/ v = "false"%string ->
    MonitorEvent (EvWriteDebugStat "is_gateway" v)
| MeRootMode (mode : Z) :
    setRootModeIfGate_ cfg <> 0%Z ->
    mode = 0%Z \/ mode = setRootModeIfGate_ cfg ->
    MonitorEvent (EvSetRootMode mode)
| MeGatewayStatus (isGate : bool) :
    routing_ cfg = true -> MonitorEvent (EvSetGatewayStatus isGate)
| MeFlap : MonitorEvent EvFlap
| MeScheduleTimeout : MonitorEvent (EvScheduleTimeout (monitorInterval cfg)).

(** ** Properties *)

Ltac unfold_m :=
  unfold bind, ret, emit, getGatewayActive, setGatewayActive,
    callIsDampened, result, stateOf, events in *; simpl in *.

(** *** Advertising and withdrawing the default route *)

Lemma advertiseDefaultRoute_eq (s : State) :
  advertiseDefaultRoute s =
    (tt, s, rootModeEvents (setRootModeIfGate_ cfg) ++ gatewayStatusEvents true).
Proof.
  unfold advertiseDefaultRoute, rootModeEvents, gatewayStatusEvents. unfold_m.
  destruct (setRootModeIfGate_ cfg =? 0)%Z, (routing_ cfg); reflexivity.
Qed.

Lemma withdrawDefaultRoute_eq (s : State) :
  withdrawDefaultRoute s =
    (tt, s, rootModeEvents 0 ++ gatewayStatusEvents false).
Proof.
  unfold withdrawDefaultRoute, rootModeEvents, gatewayStatusEvents. unfold_m.
  destruct (setRootModeIfGate_ cfg =? 0)%Z, (routing_ cfg); reflexivity.
Qed.

(** C6 (as amended): [advertiseDefaultRoute] leaves the monitor's state
    alone, calls [setRootMode(setRootModeIfGate_)] exactly when
    [setRootModeIfGate_ != 0], and then calls [setGatewayStatus(true)]
    exactly when the routing engine is attached ([routing_] is non-null);
    [withdrawDefaultRoute] does the same with [setRootMode(0)] and
    [setGatewayStatus(false)]. *)
Theorem advertise_withdraw_default_route (s : State) :
  advertiseDefaultRoute s =
    (tt, s,
     (if (setRootModeIfGate_ cfg =? 0)%Z then []
      else [EvSetRootMode (setRootModeIfGate_ cfg)]) ++
     (if routing_ cfg then [EvSetGatewayStatus true] else [])) /\
  withdrawDefaultRoute s =
    (tt, s,
     (if (setRootModeIfGate_ cfg =? 0)%Z then [] else [EvSetRootMode 0]) ++
     (if routing_ cfg then [EvSetGatewayStatus false] else [])).
Proof.
  split; [apply advertiseDefaultRoute_eq | apply withdrawDefaultRoute_eq].
Qed.

(** *** The dampener hooks *)

Lemma dampen_eq (s : State) :
  dampen s =
    (tt, s,
     if isGatewayActive_ s
     then EvWriteDebugStat "is_gateway" "false"
            :: events (withdrawDefaultRoute s)
     else []).
Proof.
  unfold dampen. unfold_m. destruct (isGatewayActive_ s); [|reflexivity].
  now rewrite withdrawDefaultRoute_eq.
Qed.

Lemma undampen_eq (s : State) :
  undampen s =
    (tt, s,
     if isGatewayActive_ s
     then EvWriteDebugStat "is_gateway" "true"
            :: events (advertiseDefaultRoute s)
     else []).
Proof.
  unfold undampen. unfold_m. destruct (isGatewayActive_ s); [|reflexivity].
  now rewrite advertiseDefaultRoute_eq.
Qed.

(** C5: [dampen()] records "is_gateway=false" and withdraws the default
    route exactly when the gateway is active, [undampen()] records
    "is_gateway=true" and advertises it exactly when the gateway is active;
    with an inactive gateway both do nothing.  Neither changes the state. *)
Theorem dampen_undampen_conditional (s : State) :
  dampen s =
    (if isGatewayActive_ s
     then (emit (EvWriteDebugStat "is_gateway" "false") ;;;
           withdrawDefaultRoute) s
     else (tt, s, [])) /\
  undampen s =
    (if isGatewayActive_ s
     then (emit (EvWriteDebugStat "is_gateway" "true") ;;;
           advertiseDefaultRoute) s
     else (tt, s, [])) /\
  (forall e, In e (events (dampen s)) -> isGatewayActive_ s = true) /\
  (forall e, In e (events (undampen s)) -> isGatewayActive_ s = true) /\
  (isGatewayActive_ s = true ->
   In (EvWriteDebugStat "is_gateway" "false") (events (dampen s)) /\
   In (EvWriteDebugStat "is_gateway" "true") (events (undampen s))).
Proof.
  rewrite dampen_eq, undampen_eq.
  destruct (isGatewayActive_ s); unfold_m;
    rewrite ?withdrawDefaultRoute_eq, ?advertiseDefaultRoute_eq; simpl;
    repeat split; auto; try contradiction; discriminate.
Qed.

Lemma runHook_state (h : Hook) (s : State) : stateOf (runHook h s) = s.
Proof.
  destruct h; simpl; [now rewrite dampen_eq | now rewrite undampen_eq |].
  reflexivity.
Qed.

Lemma runHooks_state (hs : list Hook) (s : State) :
  stateOf (runHooks hs s) = s.
Proof.
  induction hs as [|h hs IH]; [reflexivity|].
  simpl. unfold bind.
  pose proof (runHook_state h s) as Hh. unfold stateOf in *.
  destruct (runHook h s) as [[[] s1] e1]. simpl in Hh. subst s1.
  destruct (runHooks hs s) as [[[] s2] e2]. simpl in *. assumption.
Qed.

(** With an inactive gateway the hooks reduce to their [setStat] calls. *)
Lemma runHooks_inactive (hs : list Hook) (s : State) :
  isGatewayActive_ s = false ->
  runHooks hs s = (tt, s, hookStatEvents hs).
Proof.
  intros Hin. induction hs as [|h hs IH]; [reflexivity|].
  simpl. unfold bind.
  destruct h; simpl; rewrite ?dampen_eq, ?undampen_eq, ?Hin;
    unfold setStat, emit; rewrite IH; reflexivity.
Qed.

(** *** One probe *)

Lemma withConnects_self (s : State) : withConnects s (connects s) = s.
Proof. now destruct s. Qed.

Lemma lastAnswer_cons (n : nat) (a : SocketAddress)
    (rest : list SocketAddress) (res : Result) :
  lastAnswer n (a :: rest) res = lastAnswer (S n) rest (answer n a).
Proof.
  unfold lastAnswer. destruct rest as [|b rest'].
  - simpl. f_equal. lia.
  - change (last (a :: b :: rest')) with (last (b :: rest')).
    destruct (last (b :: rest')) eqn:Hlast.
    + f_equal. simpl. lia.
    + apply last_None in Hlast. discriminate.
Qed.

(** The loop over the addresses either finds a first address that accepts,
    having tried exactly the addresses up to it, or tries them all. *)
Lemma connectLoop_cases (addrs : list SocketAddress) :
  forall (res : Result) (s : State),
    (exists i a,
        addrs !! i = Some a /\
        success (answer (connects s + i) a) = true /\
        (forall j b, j < i -> addrs !! j = Some b ->
                     success (answer (connects s + j) b) = false) /\
        connectLoop addrs res s =
          ((answer (connects s + i) a, true),
           withConnects s (connects s + S i),
           map connectEvent (take (S i) addrs))) \/
    ((forall j b, addrs !! j = Some b ->
                  success (answer (connects s + j) b) = false) /\
     connectLoop addrs res s =
       ((lastAnswer (connects s) addrs res, false),
        withConnects s (connects s + length addrs),
        map connectEvent addrs)).
Proof.
  induction addrs as [|a rest IH]; intros res s.
  - right. split; [intros j b Hj; now rewrite lookup_nil in Hj|].
    simpl. unfold ret. now rewrite Nat.add_0_r, withConnects_self.
  - cbn [connectLoop]. unfold bind, socketConnect.
    fold (answer (connects s) a). fold (connectEvent a).
    destruct (success (answer (connects s) a)) eqn:Ha.
    + left. exists 0, a. rewrite Nat.add_0_r.
      repeat split; auto; [intros j b Hj; lia|].
      unfold ret. simpl. unfold withConnects. simpl.
      now rewrite Nat.add_1_r.
    + set (s1 := {| isGatewayActive_ := isGatewayActive_ s;
                    dampener_ := dampener_ s;
                    connects := S (connects s) |}).
      destruct (IH (answer (connects s) a) s1)
        as [(i & b & Hi & Hok & Hbefore & Heq) | (Hall & Heq)];
        rewrite Heq; simpl connects in *.
      * left. exists (S i), b.
        replace (connects s + S i) with (S (connects s) + i) by lia.
        repeat split; auto.
        -- intros [|j] c Hj Hc; simpl in Hc.
           ++ injection Hc as <-. now rewrite Nat.add_0_r.
           ++ replace (connects s + S j) with (S (connects s) + j) by lia.
              apply Hbefore; [lia | assumption].
        -- unfold withConnects. simpl. repeat f_equal. lia.
      * right. split.
        -- intros [|j] c Hc; simpl in Hc.
           ++ injection Hc as <-. now rewrite Nat.add_0_r.
           ++ replace (connects s + S j) with (S (connects s) + j) by lia.
              now apply Hall.
        -- rewrite lastAnswer_cons. unfold withConnects. simpl.
           repeat f_equal. lia.
Qed.

(** [probeWanConnectivity] returns [true] with the success counter
    incremented after the connects up to the first accepting address, or
    [false] with one failure counter incremented after a connect to every
    address. *)
Lemma probeWanConnectivity_cases (s : State) :
  (exists i a,
      monitoredAddresses_ cfg !! i = Some a /\
      success (answer (connects s + i) a) = true /\
      (forall j b, j < i -> monitoredAddresses_ cfg !! j = Some b ->
                   success (answer (connects s + j) b) = false) /\
      probeWanConnectivity s =
        (true,
         withConnects s (connects s + S i),
         map connectEvent (take (S i) (monitoredAddresses_ cfg)) ++
         [EvIncrementSumStat probeSuccessKey])) \/
  ((forall j b, monitoredAddresses_ cfg !! j = Some b ->
                success (answer (connects s + j) b) = false) /\
   probeWanConnectivity s =
     (false,
      withConnects s (connects s + length (monitoredAddresses_ cfg)),
      map connectEvent (monitoredAddresses_ cfg) ++
      [EvIncrementSumStat
         (probeFailedPrefix +:+
          errorMsg (lastAnswer (connects s) (monitoredAddresses_ cfg)
                               defaultResult))])).
Proof.
  unfold probeWanConnectivity, bind.
  destruct (connectLoop_cases (monitoredAddresses_ cfg) defaultResult s)
    as [(i & a & Hi & Hok & Hbefore & Heq) | (Hall & Heq)]; rewrite Heq.
  - left. exists i, a. repeat split; auto.
  - right. split; auto.
Qed.

Lemma probeWanConnectivity_frame (s : State) :
  isGatewayActive_ (stateOf (probeWanConnectivity s)) = isGatewayActive_ s /\
  dampener_ (stateOf (probeWanConnectivity s)) = dampener_ s.
Proof.
  destruct (probeWanConnectivity_cases s)
    as [(i & a & _ & _ & _ & Heq) | (_ & Heq)]; rewrite Heq; now split.
Qed.

(** *** Repeated probes *)

Lemma afterProbes_S (k : nat) (s : State) :
  afterProbes (S k) s = afterProbes k (stateOf (probeWanConnectivity s)).
Proof. unfold afterProbes. now rewrite Nat.iter_succ_r. Qed.

Lemma probesEvents_S (k : nat) (s : State) :
  probesEvents (S k) s =
    events (probeWanConnectivity s) ++
    probesEvents k (stateOf (probeWanConnectivity s)).
Proof.
  induction k as [|k IH].
  - simpl. now rewrite app_nil_r.
  - change (probesEvents (S (S k)) s)
      with (probesEvents (S k) s ++
            events (probeWanConnectivity (afterProbes (S k) s))).
    rewrite IH, afterProbes_S, <- app_assoc. reflexivity.
Qed.

Lemma afterProbes_frame (k : nat) (s : State) :
  isGatewayActive_ (afterProbes k s) = isGatewayActive_ s /\
  dampener_ (afterProbes k s) = dampener_ s.
Proof.
  induction k as [|k IH]; [now split|].
  change (afterProbes (S k) s)
    with (stateOf (probeWanConnectivity (afterProbes k s))).
  destruct (probeWanConnectivity_frame (afterProbes k s)) as [H1 H2].
  destruct IH as [H3 H4]. split; congruence.
Qed.

(** The retry loop stops after the first probe that succeeds, or runs all
    [n] probes. *)
Lemma robustLoop_cases (n : nat) :
  forall s : State,
    (exists k,
        k < n /\
        result (probeWanConnectivity (afterProbes k s)) = true /\
        (forall j, j < k ->
                   result (probeWanConnectivity (afterProbes j s)) = false) /\
        robustLoop n s = (true, afterProbes (S k) s, probesEvents (S k) s)) \/
    ((forall j, j < n ->
                result (probeWanConnectivity (afterProbes j s)) = false) /\
     robustLoop n s = (false, afterProbes n s, probesEvents n s)).
Proof.
  induction n as [|n IH]; intros s.
  - right. split; [intros j Hj; lia | reflexivity].
  - cbn [robustLoop]. unfold bind.
    destruct (probeWanConnectivity s) as [[ok s1] e1] eqn:Hp.
    destruct ok.
    + left. exists 0. change (afterProbes 0 s) with s.
      repeat split; [lia | now rewrite Hp | intros j Hj; lia |].
      unfold ret. simpl. unfold afterProbes. simpl. rewrite Hp. simpl.
      now rewrite app_nil_r.
    + assert (Hs1 : stateOf (probeWanConnectivity s) = s1) by now rewrite Hp.
      assert (He1 : events (probeWanConnectivity s) = e1) by now rewrite Hp.
      destruct (IH s1) as [(k & Hk & Hok & Hbefore & Heq) | (Hall & Heq)];
        rewrite Heq.
      * left. exists (S k).
        rewrite (afterProbes_S (S k) s), (probesEvents_S (S k) s),
          (afterProbes_S k s), Hs1, He1.
        repeat split; auto; [lia|].
        intros [|j] Hj; [change (afterProbes 0 s) with s; now rewrite Hp|].
        rewrite afterProbes_S, Hs1. apply Hbefore. lia.
      * right. rewrite (afterProbes_S n s), (probesEvents_S n s), Hs1, He1.
        split; auto.
        intros [|j] Hj; [change (afterProbes 0 s) with s; now rewrite Hp|].
        rewrite afterProbes_S, Hs1. apply Hall. lia.
Qed.

Lemma probeWanConnectivityRobustly_frame (s : State) :
  isGatewayActive_ (stateOf (probeWanConnectivityRobustly s))
    = isGatewayActive_ s /\
  dampener_ (stateOf (probeWanConnectivityRobustly s)) = dampener_ s.
Proof.
  unfold probeWanConnectivityRobustly.
  destruct (robustLoop_cases (robustness_ cfg) s)
    as [(k & _ & _ & _ & Heq) | (_ & Heq)]; rewrite Heq;
    apply afterProbes_frame.
Qed.

(** C3: [probeWanConnectivityRobustly] returns [true] exactly when one of
    the (at most [robustness_]) probes it would make in sequence returns
    [true]; it stops after the first such probe, and otherwise makes all of
    them.  [probeWanConnectivity] returns [true] exactly when one of the
    addresses, tried in the configured order, accepts; it connects (bound
    to the monitored interface, with the socket timeout) to the addresses
    up to and including the first that accepts, and returns [false] after
    having tried every address in vain. *)
Theorem probe_wan_connectivity_robustly_spec (s : State) :
  (result (probeWanConnectivityRobustly s) = true <->
   exists k, k < robustness_ cfg /\
             result (probeWanConnectivity (afterProbes k s)) = true) /\
  ((exists k,
       k < robustness_ cfg /\
       result (probeWanConnectivity (afterProbes k s)) = true /\
       (forall j, j < k ->
                  result (probeWanConnectivity (afterProbes j s)) = false) /\
       probeWanConnectivityRobustly s =
         (true, afterProbes (S k) s, probesEvents (S k) s)) \/
   ((forall j, j < robustness_ cfg ->
               result (probeWanConnectivity (afterProbes j s)) = false) /\
    probeWanConnectivityRobustly s =
      (false, afterProbes (robustness_ cfg) s,
       probesEvents (robustness_ cfg) s))) /\
  (result (probeWanConnectivity s) = true <->
   exists i a, monitoredAddresses_ cfg !! i = Some a /\
               success (answer (connects s + i) a) = true) /\
  ((exists i a,
       monitoredAddresses_ cfg !! i = Some a /\
       success (answer (connects s + i) a) = true /\
       (forall j b, j < i -> monitoredAddresses_ cfg !! j = Some b ->
                    success (answer (connects s + j) b) = false) /\
       result (probeWanConnectivity s) = true /\
       List.filter isConnect (events (probeWanConnectivity s)) =
         map connectEvent (take (S i) (monitoredAddresses_ cfg))) \/
   ((forall j b, monitoredAddresses_ cfg !! j = Some b ->
                 success (answer (connects s + j) b) = false) /\
    result (probeWanConnectivity s) = false /\
    List.filter isConnect (events (probeWanConnectivity s)) =
      map connectEvent (monitoredAddresses_ cfg))).
Proof.
  assert (Hfilter : forall l e,
             isConnect e = false ->
             List.filter isConnect (map connectEvent l ++ [e])
             = map connectEvent l).
  { intros l e He. rewrite List.filter_app. simpl. rewrite He, app_nil_r.
    induction l as [|a l IH]; [reflexivity|]. simpl. now rewrite IH. }
  pose proof (robustLoop_cases (robustness_ cfg) s) as Hrobust.
  pose proof (probeWanConnectivity_cases s) as Hprobe.
  fold probeWanConnectivityRobustly in Hrobust.
  repeat split.
  - intros Htrue.
    destruct Hrobust as [(k & Hk & Hok & _ & _) | (_ & Heq)]; [eauto|].
    rewrite Heq in Htrue. discriminate.
  - intros (k & Hk & Hok).
    destruct Hrobust as [(k' & _ & _ & _ & Heq) | (Hall & _)];
      [now rewrite Heq|].
    rewrite (Hall k Hk) in Hok. discriminate.
  - exact Hrobust.
  - intros Htrue.
    destruct Hprobe as [(i & a & Hi & Hok & _ & _) | (_ & Heq)]; [eauto|].
    rewrite Heq in Htrue. discriminate.
  - intros (i & a & Hi & Hok).
    destruct Hprobe as [(i' & a' & _ & _ & _ & Heq) | (Hall & _)];
      [now rewrite Heq|].
    rewrite (Hall i a Hi) in Hok. discriminate.
  - destruct Hprobe as [(i & a & Hi & Hok & Hbefore & Heq) | (Hall & Heq)];
      rewrite Heq; [left; exists i, a | right];
      unfold result, events; simpl fst; simpl snd;
      rewrite Hfilter by reflexivity; auto 10.
Qed.

(** C10: with [robustness_ = 0] the robust probe returns [false] and does
    nothing at all; with no monitored address a probe returns [false],
    connects to nothing, and increments the failure counter keyed by the
    error message of the default-constructed result. *)
Theorem probe_degenerate_configurations (s : State) :
  (robustness_ cfg = 0 ->
   probeWanConnectivityRobustly s = (false, s, [])) /\
  (monitoredAddresses_ cfg = [] ->
   probeWanConnectivity s =
     (false, s,
      [EvIncrementSumStat (probeFailedPrefix +:+ errorMsg defaultResult)])).
Proof.
  split.
  - intros H0. unfold probeWanConnectivityRobustly. now rewrite H0.
  - intros Hnil. unfold probeWanConnectivity. rewrite Hnil.
    reflexivity.
Qed.

(** *** One connectivity check *)

Lemma callFlap_inactive (s : State) :
  isGatewayActive_ s = false ->
  callFlap s =
    (tt,
     {| isGatewayActive_ := false; dampener_ := fst (flap (dampener_ s));
        connects := connects s |},
     EvFlap :: hookStatEvents (snd (flap (dampener_ s)))).
Proof.
  intros Hin. unfold callFlap, callDampener, bind, emit.
  destruct (flap (dampener_ s)) as [d hs]. rewrite Hin.
  now rewrite runHooks_inactive by reflexivity.
Qed.

(** What one run of [checkRoutesAndAdvertise] does, after its probing. *)
Lemma checkRoutesAndAdvertise_eq (s : State) :
  checkRoutesAndAdvertise s =
    if result (probeWanConnectivityRobustly s)
    then
      (tt,
       {| isGatewayActive_ := true;
          dampener_ := if isGatewayActive_ s then dampener_ s
                       else fst (flap (dampener_ s));
          connects := connects (stateOf (probeWanConnectivityRobustly s)) |},
       events (probeWanConnectivityRobustly s) ++
       (if isDampened (dampener_ s) then []
        else EvWriteDebugStat "is_gateway" "true"
               :: rootModeEvents (setRootModeIfGate_ cfg)
               ++ gatewayStatusEvents true) ++
       (if isGatewayActive_ s then []
        else EvFlap :: hookStatEvents (snd (flap (dampener_ s)))))
    else
      (tt,
       {| isGatewayActive_ := false;
          dampener_ := dampener_ s;
          connects := connects (stateOf (probeWanConnectivityRobustly s)) |},
       events (probeWanConnectivityRobustly s) ++
       EvWriteDebugStat "is_gateway" "false"
         :: rootModeEvents 0 ++ gatewayStatusEvents false).
Proof.
  unfold checkRoutesAndAdvertise.
  destruct (probeWanConnectivityRobustly_frame s) as [Hact Hdamp].
  unfold bind at 1.
  destruct (probeWanConnectivityRobustly s) as [[ok s1] e1].
  unfold result, stateOf, events in *. simpl in Hact, Hdamp. simpl.
  destruct ok.
  - unfold bind, callIsDampened, getGatewayActive, setGatewayActive, emit, ret.
    rewrite Hdamp.
    destruct (isDampened (dampener_ s)); simpl;
      rewrite ?advertiseDefaultRoute_eq; rewrite Hact;
      destruct (isGatewayActive_ s) eqn:Hs; simpl;
      rewrite ?callFlap_inactive by congruence; simpl;
      rewrite ?Hdamp, ?app_nil_r; reflexivity.
  - unfold bind, setGatewayActive, emit.
    rewrite withdrawDefaultRoute_eq, Hdamp. simpl.
    now rewrite app_nil_r.
Qed.

(** C2: a connectivity check whose robust probe succeeds records
    "is_gateway=true" and advertises the default route when (and only when)
    the dampener is not suppressed, then calls [flap()] when (and only when)
    the gateway was inactive, and leaves [isGatewayActive_] true; one whose
    robust probe fails records "is_gateway=false", withdraws the default
    route and leaves [isGatewayActive_] false. *)
Theorem check_routes_and_advertise_spec (s : State) :
  let r := probeWanConnectivityRobustly s in
  let t := checkRoutesAndAdvertise s in
  if result r
  then
    events t =
      events r ++
      (if isDampened (dampener_ s) then []
       else EvWriteDebugStat "is_gateway" "true"
              :: events (advertiseDefaultRoute s)) ++
      (if isGatewayActive_ s then []
       else EvFlap :: events (runHooks (snd (flap (dampener_ s)))
                                       (stateAtFlap s))) /\
    dampener_ (stateOf t) =
      (if isGatewayActive_ s then dampener_ s
       else fst (flap (dampener_ s))) /\
    isGatewayActive_ (stateOf t) = true
  else
    events t =
      events r ++
      EvWriteDebugStat "is_gateway" "false"
        :: events (withdrawDefaultRoute s) /\
    dampener_ (stateOf t) = dampener_ s /\
    isGatewayActive_ (stateOf t) = false.
Proof.
  cbv zeta. rewrite checkRoutesAndAdvertise_eq.
  rewrite advertiseDefaultRoute_eq, withdrawDefaultRoute_eq.
  destruct (result (probeWanConnectivityRobustly s));
    unfold events, stateOf; simpl; [|tauto].
  destruct (isGatewayActive_ s) eqn:Hs; [tauto|].
  rewrite runHooks_inactive by (unfold stateAtFlap; simpl; exact Hs).
  simpl. tauto.
Qed.

Lemma hookStatEvents_no_route (hs : list Hook) :
  Forall (fun e => isRouteEvent e = false) (hookStatEvents hs).
Proof.
  induction hs as [|[| |path value] hs IH]; simpl; auto.
Qed.

(** C9: in a connectivity check that takes the gateway from inactive to
    active, [flap()] runs while [isGatewayActive_] is still false.  If the
    dampener was not suppressed and that flap suppresses it, its [dampen()]
    hook does nothing, so nothing follows the advertisement made earlier in
    the check that would withdraw it (no root-mode, gateway-status or
    "is_gateway" call): the check ends active, suppressed, and
    advertised. *)
Theorem flap_during_activation_does_not_withdraw (s : State) :
  result (probeWanConnectivityRobustly s) = true ->
  isGatewayActive_ s = false ->
  isDampened (dampener_ s) = false ->
  isDampened (fst (flap (dampener_ s))) = true ->
  let t := checkRoutesAndAdvertise s in
  isGatewayActive_ (stateAtFlap s) = false /\
  dampen (stateAtFlap s) = (tt, stateAtFlap s, []) /\
  events t =
    events (probeWanConnectivityRobustly s) ++
    EvWriteDebugStat "is_gateway" "true"
      :: events (advertiseDefaultRoute s) ++
    EvFlap :: hookStatEvents (snd (flap (dampener_ s))) /\
  Forall (fun e => isRouteEvent e = false)
         (EvFlap :: hookStatEvents (snd (flap (dampener_ s)))) /\
  isGatewayActive_ (stateOf t) = true /\
  isDampened (dampener_ (stateOf t)) = true.
Proof.
  intros Hok Hinactive Hundamped Hdamped. cbv zeta.
  rewrite checkRoutesAndAdvertise_eq, Hok, Hinactive, Hundamped.
  rewrite advertiseDefaultRoute_eq, dampen_eq.
  unfold events, stateOf, stateAtFlap; simpl. rewrite Hinactive.
  repeat split; auto.
  constructor; [reflexivity | apply hookStatEvents_no_route].
Qed.

(** *** The probe counters *)

Lemma prefix_app (p e : string) : String.prefix p (p +:+ e) = true.
Proof.
  induction p as [|c p IH]; simpl; [now destruct e|].
  destruct (ascii_dec c c); [assumption | contradiction].
Qed.

Lemma failed_key_not_success (e : string) :
  probeFailedPrefix +:+ e <> probeSuccessKey.
Proof.
  intros Heq. pose proof (prefix_app probeFailedPrefix e) as Hp.
  rewrite Heq in Hp. discriminate.
Qed.

Lemma filter_connects_nil (f : Event -> bool) (l : list SocketAddress) :
  (forall a, f (connectEvent a) = false) ->
  List.filter f (map connectEvent l) = [].
Proof.
  intros Hf. induction l as [|a l IH]; simpl; [reflexivity|].
  now rewrite Hf.
Qed.

Lemma probe_stat_events (s : State) :
  List.filter isStat (events (probeWanConnectivity s)) =
    [EvIncrementSumStat
       (if result (probeWanConnectivity s) then probeSuccessKey
        else probeFailedPrefix +:+
             errorMsg (lastAnswer (connects s) (monitoredAddresses_ cfg)
                                  defaultResult))].
Proof.
  destruct (probeWanConnectivity_cases s)
    as [(i & a & _ & _ & _ & Heq) | (_ & Heq)]; rewrite Heq;
    unfold events, result; simpl;
    rewrite List.filter_app, filter_connects_nil by reflexivity;
    reflexivity.
Qed.

Lemma probe_counts (s : State) :
  List.filter isProbeSuccessIncrement (events (probeWanConnectivity s)) =
    (if result (probeWanConnectivity s)
     then [EvIncrementSumStat probeSuccessKey] else []) /\
  length (List.filter isProbeFailureIncrement
                      (events (probeWanConnectivity s))) =
    (if result (probeWanConnectivity s) then 0 else 1).
Proof.
  destruct (probeWanConnectivity_cases s)
    as [(i & a & _ & _ & _ & Heq) | (_ & Heq)]; rewrite Heq;
    unfold events, result; cbn [fst snd];
    rewrite !List.filter_app, !filter_connects_nil by reflexivity;
    cbn [List.filter app isProbeSuccessIncrement isProbeFailureIncrement].
  - split; reflexivity.
  - rewrite prefix_app.
    rewrite bool_decide_eq_false_2 by apply failed_key_not_success.
    split; reflexivity.
Qed.

Lemma probesEvents_failures (k : nat) (s : State) :
  (forall j, j < k ->
             result (probeWanConnectivity (afterProbes j s)) = false) ->
  List.filter isProbeSuccessIncrement (probesEvents k s) = [] /\
  length (List.filter isProbeFailureIncrement (probesEvents k s)) = k.
Proof.
  induction k as [|k IH]; intros Hall; [now split|].
  destruct IH as [IH1 IH2]; [intros j Hj; apply Hall; lia|].
  destruct (probe_counts (afterProbes k s)) as [H1 H2].
  rewrite (Hall k) in H1, H2 by lia.
  cbn [probesEvents].
  rewrite !List.filter_app, length_app, IH1, IH2, H1, H2.
  split; [reflexivity | lia].
Qed.

Lemma robust_first_success (k : nat) (s : State) :
  k < robustness_ cfg ->
  result (probeWanConnectivity (afterProbes k s)) = true ->
  (forall j, j < k ->
             result (probeWanConnectivity (afterProbes j s)) = false) ->
  probeWanConnectivityRobustly s =
    (true, afterProbes (S k) s, probesEvents (S k) s).
Proof.
  intros Hk Hok Hbefore. unfold probeWanConnectivityRobustly.
  destruct (robustLoop_cases (robustness_ cfg) s)
    as [(k' & Hk' & Hok' & Hbefore' & Heq) | (Hall & _)].
  - destruct (Nat.lt_trichotomy k k') as [Hlt | [-> | Hgt]];
      [|assumption|].
    + rewrite (Hbefore' k Hlt) in Hok. discriminate.
    + rewrite (Hbefore k' Hgt) in Hok'. discriminate.
  - rewrite (Hall k Hk) in Hok. discriminate.
Qed.

Lemma filter_hookStatEvents_nil (f : Event -> bool) (hs : list Hook) :
  (forall key value, f (EvSetAvgStat key value) = false) ->
  List.filter f (hookStatEvents hs) = [].
Proof.
  intros Hf. induction hs as [|[| |path value] hs IH]; simpl; auto.
  now rewrite Hf.
Qed.

(** C4: a probe touches exactly one statistic, incrementing the success
    counter when it returns [true] and otherwise the failure counter keyed
    by the error message of the last address tried (of the
    default-constructed result when there is no address); so a connectivity
    check whose [k]-th probe is the first to succeed increments the success
    counter once and failure counters [k - 1] times. *)
Theorem probe_increments_one_stat (s : State) :
  List.filter isStat (events (probeWanConnectivity s)) =
    [EvIncrementSumStat
       (if result (probeWanConnectivity s)
        then probeSuccessKey
        else probeFailedPrefix +:+
             errorMsg
               match last (monitoredAddresses_ cfg) with
               | Some a =>
                   answer (connects s
                           + (length (monitoredAddresses_ cfg) - 1)) a
               | None => defaultResult
               end)] /\
  (forall k,
      1 <= k <= robustness_ cfg ->
      result (probeWanConnectivity (afterProbes (k - 1) s)) = true ->
      (forall j, j < k - 1 ->
                 result (probeWanConnectivity (afterProbes j s)) = false) ->
      length (List.filter isProbeSuccessIncrement
                          (events (checkRoutesAndAdvertise s))) = 1 /\
      length (List.filter isProbeFailureIncrement
                          (events (checkRoutesAndAdvertise s))) = k - 1).
Proof.
  split; [exact (probe_stat_events s)|].
  intros k Hk Hok Hbefore.
  assert (Hrobust : probeWanConnectivityRobustly s =
                    (true, afterProbes (S (k - 1)) s,
                     probesEvents (S (k - 1)) s))
    by (apply robust_first_success; [lia | assumption | assumption]).
  destruct (probesEvents_failures (k - 1) s Hbefore) as [Hs Hf].
  destruct (probe_counts (afterProbes (k - 1) s)) as [Hs1 Hf1].
  rewrite Hok in Hs1, Hf1.
  rewrite checkRoutesAndAdvertise_eq, Hrobust.
  unfold result, events; simpl fst; simpl snd. cbv iota.
  cbn [probesEvents].
  rewrite !List.filter_app, !length_app, Hs, Hf, Hs1, Hf1.
  assert (Htail : forall f : Event -> bool,
             (forall key value, f (EvSetAvgStat key value) = false) ->
             (forall key value, f (EvWriteDebugStat key value) = false) ->
             (forall mode, f (EvSetRootMode mode) = false) ->
             (forall g, f (EvSetGatewayStatus g) = false) ->
             f EvFlap = false ->
             List.filter f
               (if isDampened (dampener_ s) then []
                else EvWriteDebugStat "is_gateway" "true"
                       :: rootModeEvents (setRootModeIfGate_ cfg)
                       ++ gatewayStatusEvents true) = [] /\
             List.filter f
               (if isGatewayActive_ s then []
                else EvFlap :: hookStatEvents (snd (flap (dampener_ s))))
             = []).
  { intros f Havg Hdbg Hroot Hgw Hflap. split.
    - destruct (isDampened (dampener_ s)); [reflexivity|].
      unfold rootModeEvents, gatewayStatusEvents.
      destruct (setRootModeIfGate_ cfg =? 0)%Z, (routing_ cfg); simpl;
        rewrite ?Hdbg, ?Hroot, ?Hgw; reflexivity.
    - destruct (isGatewayActive_ s); [reflexivity|].
      simpl. rewrite Hflap. now apply filter_hookStatEvents_nil. }
  destruct (Htail isProbeSuccessIncrement) as [-> ->]; try reflexivity.
  destruct (Htail isProbeFailureIncrement) as [-> ->]; try reflexivity.
  simpl. split; lia.
Qed.

(** *** The reverse-path filter is switched off once *)

Lemma length_append (a b : string) :
  String.length (a +:+ b) = String.length a + String.length b.
Proof. induction a as [|c a IH]; simpl; [reflexivity | now rewrite IH]. Qed.

Lemma append_inv_tail (t : string) :
  forall a b : string, a +:+ t = b +:+ t -> a = b.
Proof.
  induction a as [|c a IH]; intros [|c' b] Heq.
  - reflexivity.
  - apply (f_equal String.length) in Heq.
    rewrite !length_append in Heq. simpl in Heq. lia.
  - apply (f_equal String.length) in Heq.
    rewrite !length_append in Heq. simpl in Heq. lia.
  - cbn [String.append] in Heq. injection Heq as -> Heq.
    f_equal. now apply IH.
Qed.

Lemma rpFilterPath_all (iface : string) :
  rpFilterPath iface = rpFilterAllPath -> iface = "all"%string.
Proof.
  unfold rpFilterPath.
  change rpFilterAllPath
    with ("/proc/sys/net/ipv4/conf/" +:+ "all" +:+ "/rp_filter").
  intros Heq. apply String.app_inj in Heq.
  now apply append_inv_tail in Heq.
Qed.

Lemma connectEvents_noWrite (l : list SocketAddress) :
  noWrite (map connectEvent l).
Proof. induction l; simpl; constructor; auto. Qed.

Lemma probe_noWrite (s : State) : noWrite (events (probeWanConnectivity s)).
Proof.
  destruct (probeWanConnectivity_cases s)
    as [(i & a & _ & _ & _ & Heq) | (_ & Heq)]; rewrite Heq;
    apply Forall_app_2; auto using connectEvents_noWrite.
Qed.

Lemma probesEvents_noWrite (k : nat) (s : State) :
  noWrite (probesEvents k s).
Proof.
  induction k as [|k IH]; simpl; [constructor|].
  apply Forall_app_2; auto using probe_noWrite.
Qed.

Lemma robust_noWrite (s : State) :
  noWrite (events (probeWanConnectivityRobustly s)).
Proof.
  unfold probeWanConnectivityRobustly.
  destruct (robustLoop_cases (robustness_ cfg) s)
    as [(k & _ & _ & _ & Heq) | (_ & Heq)]; rewrite Heq;
    apply probesEvents_noWrite.
Qed.

Lemma rootModeEvents_noWrite (mode : Z) : noWrite (rootModeEvents mode).
Proof.
  unfold rootModeEvents. destruct (setRootModeIfGate_ cfg =? 0)%Z; auto.
Qed.

Lemma gatewayStatusEvents_noWrite (g : bool) :
  noWrite (gatewayStatusEvents g).
Proof. unfold gatewayStatusEvents. destruct (routing_ cfg); auto. Qed.

Lemma advertise_noWrite (s : State) :
  noWrite (events (advertiseDefaultRoute s)).
Proof.
  rewrite advertiseDefaultRoute_eq.
  apply Forall_app_2;
    auto using rootModeEvents_noWrite, gatewayStatusEvents_noWrite.
Qed.

Lemma withdraw_noWrite (s : State) :
  noWrite (events (withdrawDefaultRoute s)).
Proof.
  rewrite withdrawDefaultRoute_eq.
  apply Forall_app_2;
    auto using rootModeEvents_noWrite, gatewayStatusEvents_noWrite.
Qed.

Lemma runHook_noWrite (h : Hook) (s : State) :
  noWrite (events (runHook h s)).
Proof.
  destruct h; simpl.
  - rewrite dampen_eq. unfold events at 1. cbn [snd].
    destruct (isGatewayActive_ s); [|constructor].
    constructor; [reflexivity | apply withdraw_noWrite].
  - rewrite undampen_eq. unfold events at 1. cbn [snd].
    destruct (isGatewayActive_ s); [|constructor].
    constructor; [reflexivity | apply advertise_noWrite].
  - unfold setStat, emit, events. simpl. auto.
Qed.

Lemma runHooks_noWrite (hs : list Hook) :
  forall s : State, noWrite (events (runHooks hs s)).
Proof.
  induction hs as [|h hs IH]; intros s; [constructor|].
  simpl. unfold bind.
  pose proof (runHook_noWrite h s) as Hh.
  destruct (runHook h s) as [[[] s1] e1].
  pose proof (IH s1) as Hrest.
  destruct (runHooks hs s1) as [[[] s2] e2].
  now apply Forall_app_2.
Qed.

Lemma callDampener_noWrite (f : D -> D * list Hook) (s : State) :
  noWrite (events (callDampener f s)).
Proof.
  unfold callDampener. destruct (f (dampener_ s)) as [d hs].
  apply runHooks_noWrite.
Qed.

Lemma hookStatEvents_noWrite (hs : list Hook) :
  noWrite (hookStatEvents hs).
Proof. induction hs as [|[| |path value] hs IH]; simpl; auto. Qed.

Lemma checkRoutesAndAdvertise_noWrite (s : State) :
  noWrite (events (checkRoutesAndAdvertise s)).
Proof.
  rewrite checkRoutesAndAdvertise_eq.
  pose proof (robust_noWrite s) as Hr.
  destruct (result (probeWanConnectivityRobustly s)); unfold events; simpl.
  - repeat apply Forall_app_2; auto.
    + destruct (isDampened (dampener_ s)); auto.
      constructor; [reflexivity|].
      apply Forall_app_2;
        auto using rootModeEvents_noWrite, gatewayStatusEvents_noWrite.
    + destruct (isGatewayActive_ s); auto using hookStatEvents_noWrite.
  - apply Forall_app_2; auto. constructor; [reflexivity|].
    apply Forall_app_2;
      auto using rootModeEvents_noWrite, gatewayStatusEvents_noWrite.
Qed.

Lemma step_noWrite (o : Op) (s : State) : noWrite (events (step o s)).
Proof.
  destruct o; cbn [step].
  - pose proof (robust_noWrite s) as H. unfold bind, ret.
    destruct (probeWanConnectivityRobustly s) as [[b s1] e1].
    unfold events in *. simpl in *. now rewrite app_nil_r.
  - pose proof (probe_noWrite s) as H. unfold bind, ret.
    destruct (probeWanConnectivity s) as [[b s1] e1].
    unfold events in *. simpl in *. now rewrite app_nil_r.
  - apply (runHook_noWrite (CallSetStat path value)).
  - apply (runHook_noWrite CallDampen).
  - apply (runHook_noWrite CallUndampen).
  - apply checkRoutesAndAdvertise_noWrite.
  - apply advertise_noWrite.
  - apply withdraw_noWrite.
  - pose proof (checkRoutesAndAdvertise_noWrite s) as H.
    unfold timerCallback, bind, emit.
    destruct (checkRoutesAndAdvertise s) as [[[] s1] e1].
    unfold events in *. simpl in *. apply Forall_app_2; auto.
  - apply callDampener_noWrite.
Qed.

Lemma run_noWrite (ops : list Op) :
  forall s : State, noWrite (events (run ops s)).
Proof.
  induction ops as [|o ops IH]; intros s; [constructor|].
  simpl. unfold bind.
  pose proof (step_noWrite o s) as Ho.
  destruct (step o s) as [[[] s1] e1].
  pose proof (IH s1) as Hrest.
  destruct (run ops s1) as [[[] s2] e2].
  now apply Forall_app_2.
Qed.

Lemma noWrite_filter (f : Event -> bool) (l : list Event) :
  (forall e, f e = true -> isWriteFile e = true) ->
  noWrite l -> List.filter f l = [].
Proof.
  intros Hf Hl. induction Hl as [|e l He Hl IH]; [reflexivity|].
  simpl. rewrite IH. destruct (f e) eqn:Hfe; [|reflexivity].
  apply Hf in Hfe. congruence.
Qed.

Lemma isWriteTo_isWriteFile (path : string) (e : Event) :
  isWriteTo path e = true -> isWriteFile e = true.
Proof. now destruct e. Qed.


(** ** Further properties of the monitor *)

(** *** What the probes and a check emit *)

Lemma probesEvents_Forall (P : Event -> Prop) (k : nat) (s : State) :
  (forall s', Forall P (events (probeWanConnectivity s'))) ->
  Forall P (probesEvents k s).
Proof.
  intros Hp. induction k as [|k IH]; simpl; [constructor|].
  apply Forall_app_2; auto.
Qed.

Lemma robust_Forall (P : Event -> Prop) (s : State) :
  (forall s', Forall P (events (probeWanConnectivity s'))) ->
  Forall P (events (probeWanConnectivityRobustly s)).
Proof.
  intros Hp. unfold probeWanConnectivityRobustly.
  destruct (robustLoop_cases (robustness_ cfg) s)
    as [(k & _ & _ & _ & Heq) | (_ & Heq)]; rewrite Heq;
    now apply probesEvents_Forall.
Qed.

Lemma take_In {A : Type} (n : nat) (l : list A) (a : A) :
  In a (take n l) -> In a l.
Proof.
  revert n. induction l as [|x l IH]; intros [|n]; simpl; try tauto.
  intros [-> | Hin]; [now left | right; eauto].
Qed.

Lemma probe_Forall (P : Event -> Prop) (s : State) :
  (forall a, In a (monitoredAddresses_ cfg) -> P (connectEvent a)) ->
  (forall key, P (EvIncrementSumStat key)) ->
  Forall P (events (probeWanConnectivity s)).
Proof.
  intros Hc Hi.
  assert (Hmap : forall l, (forall a, In a l ->
                                      In a (monitoredAddresses_ cfg)) ->
                           Forall P (map connectEvent l)).
  { induction l as [|a l IH]; intros Hl; simpl; constructor.
    - apply Hc, Hl. now left.
    - apply IH. intros b Hb. apply Hl. now right. }
  destruct (probeWanConnectivity_cases s)
    as [(i & a & _ & _ & _ & Heq) | (_ & Heq)]; rewrite Heq;
    unfold events; cbn [snd]; apply Forall_app_2; auto.
  apply Hmap. intros b. apply take_In.
Qed.

Lemma Forall_filter_nil (f : Event -> bool) (l : list Event) :
  Forall (fun e => f e = false) l -> List.filter f l = [].
Proof.
  induction 1 as [|e l He _ IH]; simpl; [reflexivity|]. now rewrite He.
Qed.

Lemma robust_filter_nil (f : Event -> bool) (s : State) :
  (forall iface a timeout, f (EvConnect iface a timeout) = false) ->
  (forall key, f (EvIncrementSumStat key) = false) ->
  List.filter f (events (probeWanConnectivityRobustly s)) = [].
Proof.
  intros Hc Hi. apply Forall_filter_nil, robust_Forall.
  intros s'. apply probe_Forall; [intros a _; apply Hc | exact Hi].
Qed.

(** Filters that ignore the route, flap and gauge calls see only the
    probing part of a check. *)
Lemma check_filter_probes (f : Event -> bool) (s : State) :
  (forall key value, f (EvSetAvgStat key value) = false) ->
  (forall key value, f (EvWriteDebugStat key value) = false) ->
  (forall mode, f (EvSetRootMode mode) = false) ->
  (forall g, f (EvSetGatewayStatus g) = false) ->
  f EvFlap = false ->
  List.filter f (events (checkRoutesAndAdvertise s)) =
    List.filter f (events (probeWanConnectivityRobustly s)).
Proof.
  intros Havg Hdbg Hroot Hgw Hflap.
  assert (Hr : forall mode, List.filter f (rootModeEvents mode) = []).
  { intros mode. unfold rootModeEvents.
    destruct (setRootModeIfGate_ cfg =? 0)%Z; simpl; now rewrite ?Hroot. }
  assert (Hg : forall g, List.filter f (gatewayStatusEvents g) = []).
  { intros g. unfold gatewayStatusEvents.
    destruct (routing_ cfg); simpl; now rewrite ?Hgw. }
  rewrite checkRoutesAndAdvertise_eq.
  destruct (result (probeWanConnectivityRobustly s));
    unfold events; cbn [snd]; rewrite !List.filter_app.
  - destruct (isDampened (dampener_ s)), (isGatewayActive_ s);
      cbn [List.filter]; rewrite ?List.filter_app, ?Hdbg, ?Hflap, ?Hr, ?Hg,
        ?filter_hookStatEvents_nil by assumption;
      now rewrite ?app_nil_r.
  - cbn [List.filter]. rewrite List.filter_app, Hdbg, Hr, Hg.
    now rewrite app_nil_r.
Qed.

(** *** Connection attempts of a robust probe *)

Lemma filter_isConnect_probe (l : list SocketAddress) (key : string) :
  List.filter isConnect (map connectEvent l ++ [EvIncrementSumStat key])
  = map connectEvent l.
Proof.
  rewrite List.filter_app. simpl. rewrite app_nil_r.
  induction l as [|a l IH]; [reflexivity|]. simpl. now rewrite IH.
Qed.

Lemma probe_connect_events (s : State) :
  (result (probeWanConnectivity s) = true /\
   1 <= length (List.filter isConnect (events (probeWanConnectivity s)))
     <= length (monitoredAddresses_ cfg)) \/
  (result (probeWanConnectivity s) = false /\
   List.filter isConnect (events (probeWanConnectivity s))
   = map connectEvent (monitoredAddresses_ cfg)).
Proof.
  destruct (probeWanConnectivity_cases s)
    as [(i & a & Hi & _ & _ & Heq) | (_ & Heq)]; rewrite Heq;
    unfold events, result; cbn [fst snd]; rewrite filter_isConnect_probe.
  - left. split; [reflexivity|].
    apply lookup_lt_Some in Hi.
    rewrite length_map, length_take. lia.
  - right. now split.
Qed.

Lemma probesEvents_connect_bound (k : nat) (s : State) :
  length (List.filter isConnect (probesEvents k s))
  <= k * length (monitoredAddresses_ cfg).
Proof.
  induction k as [|k IH]; simpl; [lia|].
  rewrite List.filter_app, length_app.
  destruct (probe_connect_events (afterProbes k s)) as [[_ H] | [_ H]].
  - lia.
  - rewrite H, length_map. lia.
Qed.

Lemma concat_replicate_snoc {A : Type} (k : nat) (x : list A) :
  concat (replicate k x) ++ x = concat (replicate (S k) x).
Proof.
  induction k as [|k IH]; simpl; [now rewrite app_nil_r|].
  rewrite <- app_assoc. f_equal. exact IH.
Qed.

Lemma probesEvents_connects_failed (k : nat) (s : State) :
  (forall j, j < k ->
             result (probeWanConnectivity (afterProbes j s)) = false) ->
  List.filter isConnect (probesEvents k s) =
    concat (replicate k (map connectEvent (monitoredAddresses_ cfg))).
Proof.
  induction k as [|k IH]; intros Hall; [reflexivity|].
  cbn [probesEvents]. rewrite List.filter_app, IH by (intros j Hj; apply Hall; lia).
  destruct (probe_connect_events (afterProbes k s)) as [[H _] | [_ H]].
  - rewrite (Hall k) in H by lia. discriminate.
  - rewrite H. apply concat_replicate_snoc.
Qed.

(** X1: a robust probe makes at most [robustness_] times the number of
    monitored addresses connection attempts; when it fails it has tried
    every address in order in each of its [robustness_] rounds (every round
    starts again at the first address), and when it succeeds it has made at
    least one attempt. *)
Theorem robust_probe_connect_attempts (s : State) :
  let r := probeWanConnectivityRobustly s in
  length (List.filter isConnect (events r))
    <= robustness_ cfg * length (monitoredAddresses_ cfg) /\
  (if result r
   then 1 <= length (List.filter isConnect (events r))
   else List.filter isConnect (events r) =
          concat (replicate (robustness_ cfg)
                            (map connectEvent (monitoredAddresses_ cfg)))).
Proof.
  cbv zeta. unfold probeWanConnectivityRobustly.
  destruct (robustLoop_cases (robustness_ cfg) s)
    as [(k & Hk & Hok & _ & Heq) | (Hall & Heq)]; rewrite Heq;
    unfold events, result; cbn [fst snd].
  - split.
    + pose proof (probesEvents_connect_bound (S k) s) as Hb.
      assert (S k * length (monitoredAddresses_ cfg)
              <= robustness_ cfg * length (monitoredAddresses_ cfg))
        by (apply Nat.mul_le_mono_r; lia).
      lia.
    + cbn [probesEvents]. rewrite List.filter_app, length_app.
      destruct (probe_connect_events (afterProbes k s)) as [[_ H] | [H _]].
      * lia.
      * rewrite Hok in H. discriminate.
  - split; [apply probesEvents_connect_bound|].
    now apply probesEvents_connects_failed.
Qed.

(** *** Counters of a check *)

(** X2: a check increments the probe success counter once and failure
    counters fewer than [robustness_] times when its robust probe succeeds,
    and increments no success counter and failure counters exactly
    [robustness_] times when it fails. *)
Theorem check_stat_increments (s : State) :
  let t := checkRoutesAndAdvertise s in
  if result (probeWanConnectivityRobustly s)
  then
    length (List.filter isProbeSuccessIncrement (events t)) = 1 /\
    length (List.filter isProbeFailureIncrement (events t)) < robustness_ cfg
  else
    length (List.filter isProbeSuccessIncrement (events t)) = 0 /\
    length (List.filter isProbeFailureIncrement (events t)) = robustness_ cfg.
Proof.
  cbv zeta. rewrite !check_filter_probes by reflexivity.
  unfold probeWanConnectivityRobustly.
  destruct (robustLoop_cases (robustness_ cfg) s)
    as [(k & Hk & Hok & Hbefore & Heq) | (Hall & Heq)]; rewrite Heq;
    unfold events, result; cbn [fst snd].
  - destruct (probesEvents_failures k s Hbefore) as [Hs Hf].
    destruct (probe_counts (afterProbes k s)) as [Hs1 Hf1].
    rewrite Hok in Hs1, Hf1. cbn [probesEvents].
    rewrite !List.filter_app, !length_app, Hs, Hf, Hs1, Hf1. simpl.
    split; lia.
  - destruct (probesEvents_failures (robustness_ cfg) s Hall) as [Hs Hf].
    now rewrite Hs, Hf.
Qed.

(** *** Flaps *)

Lemma check_flap_events (s : State) :
  List.filter isFlap (events (checkRoutesAndAdvertise s)) =
    if result (probeWanConnectivityRobustly s) && negb (isGatewayActive_ s)
    then [EvFlap] else [].
Proof.
  rewrite checkRoutesAndAdvertise_eq.
  destruct (result (probeWanConnectivityRobustly s));
    unfold events at 1; cbn [snd]; rewrite !List.filter_app,
      robust_filter_nil by reflexivity.
  - replace (List.filter isFlap
               (if isDampened (dampener_ s) then []
                else EvWriteDebugStat "is_gateway" "true"
                       :: rootModeEvents (setRootModeIfGate_ cfg)
                       ++ gatewayStatusEvents true)) with (@nil Event).
    + destruct (isGatewayActive_ s); simpl; [reflexivity|].
      now rewrite filter_hookStatEvents_nil.
    + destruct (isDampened (dampener_ s)); [reflexivity|].
      unfold rootModeEvents, gatewayStatusEvents.
      now destruct (setRootModeIfGate_ cfg =? 0)%Z, (routing_ cfg).
  - unfold rootModeEvents, gatewayStatusEvents.
    now destruct (setRootModeIfGate_ cfg =? 0)%Z, (routing_ cfg).
Qed.

Lemma timerCallback_eq (s : State) :
  timerCallback s =
    (tt, stateOf (checkRoutesAndAdvertise s),
     events (checkRoutesAndAdvertise s)
     ++ [EvScheduleTimeout (monitorInterval cfg)]).
Proof.
  unfold timerCallback, bind, emit, stateOf, events.
  now destruct (checkRoutesAndAdvertise s) as [[[] s1] e1].
Qed.

Lemma check_active_after (s : State) :
  isGatewayActive_ (stateOf (checkRoutesAndAdvertise s)) =
    result (probeWanConnectivityRobustly s).
Proof.
  rewrite checkRoutesAndAdvertise_eq.
  now destruct (result (probeWanConnectivityRobustly s)).
Qed.

Lemma run_cons (o : Op) (ops : list Op) (s : State) :
  run (o :: ops) s =
    (tt, stateOf (run ops (stateOf (step o s))),
     events (step o s) ++ events (run ops (stateOf (step o s)))).
Proof.
  cbn [run]. unfold bind, stateOf, events.
  destruct (step o s) as [[[] s1] e1]. cbn [fst snd].
  now destruct (run ops s1) as [[[] s2] e2].
Qed.

(** X3: the monitor calls [flap()] exactly in those checks that find the
    gateway inactive and whose probe succeeds; over any number of
    consecutive timer callbacks the number of flaps equals the number of
    inactive-to-active transitions.  Losing connectivity is never counted
    as a flap. *)
Theorem flaps_count_activations (n : nat) (s : State) :
  List.filter isFlap (events (checkRoutesAndAdvertise s)) =
    (if result (probeWanConnectivityRobustly s) && negb (isGatewayActive_ s)
     then [EvFlap] else []) /\
  length (List.filter isFlap
            (events (run (replicate n OpTimerCallback) s)))
  = activations n s.
Proof.
  split; [apply check_flap_events|].
  revert s. induction n as [|n IH]; intros s; [reflexivity|].
  assert (Hstate : stateOf (timerCallback s)
                   = stateOf (checkRoutesAndAdvertise s))
    by now rewrite timerCallback_eq.
  assert (Hevents : List.filter isFlap (events (timerCallback s))
                    = List.filter isFlap (events (checkRoutesAndAdvertise s))).
  { rewrite timerCallback_eq. unfold events at 1. cbn [snd].
    rewrite List.filter_app. simpl. now rewrite app_nil_r. }
  cbn [replicate activations]. rewrite run_cons. unfold events at 1.
  cbn [snd step]. rewrite List.filter_app, length_app, IH, Hevents, Hstate.
  f_equal. rewrite check_flap_events, check_active_after.
  now destruct (result (probeWanConnectivityRobustly s)),
    (isGatewayActive_ s).
Qed.

(** *** Route calls of a check *)

Lemma filter_route_hookStatEvents (hs : list Hook) :
  List.filter isRouteEvent (hookStatEvents hs) = [].
Proof. now apply filter_hookStatEvents_nil. Qed.

(** X4: while the dampener is suppressed, a check whose probe succeeds
    makes no root-mode, gateway-status or "is_gateway" call at all, whether
    or not it flaps the dampener. *)
Theorem suppressed_check_makes_no_route_call (s : State) :
  isDampened (dampener_ s) = true ->
  result (probeWanConnectivityRobustly s) = true ->
  List.filter isRouteEvent (events (checkRoutesAndAdvertise s)) = [] /\
  isGatewayActive_ (stateOf (checkRoutesAndAdvertise s)) = true.
Proof.
  intros Hdamp Hok. rewrite checkRoutesAndAdvertise_eq, Hok, Hdamp.
  unfold events, stateOf; cbn [fst snd isGatewayActive_].
  split; [|reflexivity].
  rewrite !List.filter_app.
  fold (events (probeWanConnectivityRobustly s)).
  rewrite robust_filter_nil by reflexivity.
  destruct (isGatewayActive_ s); simpl; [reflexivity|].
  apply filter_route_hookStatEvents.
Qed.

Lemma lastGatewayStatus_app (a b : list Event) :
  lastGatewayStatus (a ++ b) =
    match lastGatewayStatus b with
    | Some g => Some g
    | None => lastGatewayStatus a
    end.
Proof.
  induction a as [|e a IH]; simpl.
  - now destruct (lastGatewayStatus b).
  - rewrite IH. now destruct (lastGatewayStatus b).
Qed.

Lemma lastGatewayStatus_none (l : list Event) :
  Forall (fun e => isGatewayStatus e = false) l ->
  lastGatewayStatus l = None.
Proof.
  induction 1 as [|e l He _ IH]; simpl; [reflexivity|].
  rewrite IH. now destruct e.
Qed.

Lemma lastGatewayStatus_hookStatEvents (hs : list Hook) :
  lastGatewayStatus (hookStatEvents hs) = None.
Proof.
  induction hs as [|[| |path value] hs IH]; simpl; auto. now rewrite IH.
Qed.

(** X5: the last word of a check to the routing engine, when there is one:
    [setGatewayStatus(false)] when the probe fails,
    [setGatewayStatus(true)] when it succeeds and the dampener was not
    suppressed, and no call when it succeeds under suppression.  Without a
    routing engine no check makes such a call. *)
Theorem check_last_gateway_status (s : State) :
  lastGatewayStatus (events (checkRoutesAndAdvertise s)) =
    if routing_ cfg
    then
      if result (probeWanConnectivityRobustly s)
      then if isDampened (dampener_ s) then None else Some true
      else Some false
    else None.
Proof.
  assert (Hprobes : lastGatewayStatus
                      (events (probeWanConnectivityRobustly s)) = None).
  { apply lastGatewayStatus_none, robust_Forall. intros s'.
    now apply probe_Forall. }
  rewrite checkRoutesAndAdvertise_eq.
  destruct (result (probeWanConnectivityRobustly s));
    unfold events at 1; cbn [snd]; rewrite !lastGatewayStatus_app, Hprobes.
  - assert (Hflap : lastGatewayStatus
                      (if isGatewayActive_ s then []
                       else EvFlap :: hookStatEvents (snd (flap (dampener_ s))))
                    = None).
    { destruct (isGatewayActive_ s); [reflexivity|].
      simpl. now rewrite lastGatewayStatus_hookStatEvents. }
    rewrite Hflap. unfold rootModeEvents, gatewayStatusEvents.
    now destruct (isDampened (dampener_ s)),
      (setRootModeIfGate_ cfg =? 0)%Z, (routing_ cfg).
  - unfold rootModeEvents, gatewayStatusEvents.
    now destruct (setRootModeIfGate_ cfg =? 0)%Z, (routing_ cfg).
Qed.

(** *** The timer *)

Lemma check_filter_schedule (s : State) :
  List.filter isScheduleTimeout (events (checkRoutesAndAdvertise s)) = [].
Proof.
  rewrite check_filter_probes by reflexivity.
  now apply robust_filter_nil.
Qed.

Lemma timers_filter_schedule (n : nat) :
  forall s : State,
    List.filter isScheduleTimeout
      (events (run (replicate n OpTimerCallback) s))
    = replicate n (EvScheduleTimeout (monitorInterval cfg)).
Proof.
  induction n as [|n IH]; intros s; [reflexivity|].
  cbn [replicate]. rewrite run_cons. unfold events at 1. cbn [snd step].
  rewrite List.filter_app, IH, timerCallback_eq. unfold events at 1.
  cbn [snd]. rewrite List.filter_app, check_filter_schedule. reflexivity.
Qed.

(** X6: the connectivity timer is always re-armed: every timer callback
    ends by scheduling the next timeout with the monitor interval, whatever
    the outcome of its check, and after construction and [n] callbacks the
    timer has been scheduled exactly [n + 1] times. *)
Theorem timer_always_rearmed
    (d0 : D) (active0 : bool) (n0 : nat) (n : nat) (s : State) :
  last (events (timerCallback s))
    = Some (EvScheduleTimeout (monitorInterval cfg)) /\
  List.filter isScheduleTimeout (events (timerCallback s))
    = [EvScheduleTimeout (monitorInterval cfg)] /\
  List.filter isScheduleTimeout
    (events (construct d0 active0 n0) ++
     events (run (replicate n OpTimerCallback)
                 (stateOf (construct d0 active0 n0))))
    = replicate (S n) (EvScheduleTimeout (monitorInterval cfg)).
Proof.
  rewrite timerCallback_eq.
  change (events (tt, stateOf (checkRoutesAndAdvertise s),
                  events (checkRoutesAndAdvertise s)
                  ++ [EvScheduleTimeout (monitorInterval cfg)]))
    with (events (checkRoutesAndAdvertise s)
          ++ [EvScheduleTimeout (monitorInterval cfg)]).
  repeat split.
  - apply last_snoc.
  - now rewrite List.filter_app, check_filter_schedule.
  - rewrite List.filter_app, timers_filter_schedule. reflexivity.
Qed.

(** *** Everything the monitor does *)

Lemma rootModeEvents_alphabet (mode : Z) :
  mode = 0%Z \/ mode = setRootModeIfGate_ cfg ->
  Forall MonitorEvent (rootModeEvents mode).
Proof.
  intros Hmode. unfold rootModeEvents.
  destruct (setRootModeIfGate_ cfg =? 0)%Z eqn:H0; [constructor|].
  apply Z.eqb_neq in H0.
  constructor; [now apply MeRootMode | constructor].
Qed.

Lemma gatewayStatusEvents_alphabet (g : bool) :
  Forall MonitorEvent (gatewayStatusEvents g).
Proof.
  unfold gatewayStatusEvents.
  destruct (routing_ cfg) eqn:Hr; [|constructor].
  constructor; [now apply MeGatewayStatus | constructor].
Qed.

Lemma hookStatEvents_alphabet (hs : list Hook) :
  Forall MonitorEvent (hookStatEvents hs).
Proof.
  induction hs as [|[| |path value] hs IH]; simpl; auto.
  constructor; [constructor | assumption].
Qed.

Lemma probe_alphabet (s : State) :
  Forall MonitorEvent (events (probeWanConnectivity s)).
Proof.
  destruct (probeWanConnectivity_cases s)
    as [(i & a & _ & _ & _ & Heq) | (_ & Heq)]; rewrite Heq;
    unfold events; cbn [snd]; apply Forall_app_2;
    try (repeat constructor).
  - apply List.Forall_forall. intros e He. apply in_map_iff in He.
    destruct He as (b & <- & Hb). constructor. now apply take_In in Hb.
  - apply List.Forall_forall. intros e He. apply in_map_iff in He.
    destruct He as (b & <- & Hb). now constructor.
Qed.

Lemma advertise_alphabet (s : State) :
  Forall MonitorEvent (events (advertiseDefaultRoute s)).
Proof.
  rewrite advertiseDefaultRoute_eq. unfold events. cbn [snd].
  apply Forall_app_2;
    auto using rootModeEvents_alphabet, gatewayStatusEvents_alphabet.
Qed.

Lemma withdraw_alphabet (s : State) :
  Forall MonitorEvent (events (withdrawDefaultRoute s)).
Proof.
  rewrite withdrawDefaultRoute_eq. unfold events. cbn [snd].
  apply Forall_app_2;
    auto using rootModeEvents_alphabet, gatewayStatusEvents_alphabet.
Qed.

Lemma runHook_alphabet (h : Hook) (s : State) :
  Forall MonitorEvent (events (runHook h s)).
Proof.
  destruct h; simpl.
  - rewrite dampen_eq. unfold events at 1. cbn [snd].
    destruct (isGatewayActive_ s); [|constructor].
    constructor; [constructor; auto | apply withdraw_alphabet].
  - rewrite undampen_eq. unfold events at 1. cbn [snd].
    destruct (isGatewayActive_ s); [|constructor].
    constructor; [constructor; auto | apply advertise_alphabet].
  - unfold setStat, emit, events. cbn [snd]. repeat constructor.
Qed.

Lemma runHooks_alphabet (hs : list Hook) :
  forall s : State, Forall MonitorEvent (events (runHooks hs s)).
Proof.
  induction hs as [|h hs IH]; intros s; [constructor|].
  simpl. unfold bind.
  pose proof (runHook_alphabet h s) as Hh.
  destruct (runHook h s) as [[[] s1] e1].
  pose proof (IH s1) as Hrest.
  destruct (runHooks hs s1) as [[[] s2] e2].
  now apply Forall_app_2.
Qed.

Lemma check_alphabet (s : State) :
  Forall MonitorEvent (events (checkRoutesAndAdvertise s)).
Proof.
  rewrite checkRoutesAndAdvertise_eq.
  pose proof (robust_Forall MonitorEvent s probe_alphabet) as Hr.
  destruct (result (probeWanConnectivityRobustly s));
    unfold events at 1; cbn [snd].
  - repeat apply Forall_app_2; auto.
    + destruct (isDampened (dampener_ s)); [constructor|].
      constructor; [constructor; auto|].
      apply Forall_app_2;
        auto using rootModeEvents_alphabet, gatewayStatusEvents_alphabet.
    + destruct (isGatewayActive_ s); [constructor|].
      constructor; [constructor | apply hookStatEvents_alphabet].
  - apply Forall_app_2; auto. constructor; [constructor; auto|].
    apply Forall_app_2;
      auto using rootModeEvents_alphabet, gatewayStatusEvents_alphabet.
Qed.

Lemma step_alphabet (o : Op) (s : State) :
  Forall MonitorEvent (events (step o s)).
Proof.
  destruct o; cbn [step].
  - pose proof (robust_Forall MonitorEvent s probe_alphabet) as H.
    unfold bind, ret.
    destruct (probeWanConnectivityRobustly s) as [[b s1] e1].
    unfold events in *. simpl in *. now rewrite app_nil_r.
  - pose proof (probe_alphabet s) as H. unfold bind, ret.
    destruct (probeWanConnectivity s) as [[b s1] e1].
    unfold events in *. simpl in *. now rewrite app_nil_r.
  - apply (runHook_alphabet (CallSetStat path value)).
  - apply (runHook_alphabet CallDampen).
  - apply (runHook_alphabet CallUndampen).
  - apply check_alphabet.
  - apply advertise_alphabet.
  - apply withdraw_alphabet.
  - rewrite timerCallback_eq. unfold events at 1. cbn [snd].
    apply Forall_app_2; [apply check_alphabet | repeat constructor].
  - unfold callDampener. destruct (dampenerTimer (dampener_ s)) as [d hs].
    apply runHooks_alphabet.
Qed.

Lemma run_alphabet (ops : list Op) :
  forall s : State, Forall MonitorEvent (events (run ops s)).
Proof.
  induction ops as [|o ops IH]; intros s; [constructor|].
  rewrite run_cons. unfold events at 1. cbn [snd].
  apply Forall_app_2; [apply step_alphabet | apply IH].
Qed.

(** X7: whatever runs on the monitor, every connection attempt it makes
    goes to one of the monitored addresses, bound to the monitored
    interface and with the configured socket timeout. *)
Theorem connects_only_to_monitored_addresses (ops : list Op) (s : State) :
  Forall
    (fun e =>
       match e with
       | EvConnect iface a timeout =>
           iface = monitoredInterface_ cfg /\
           In a (monitoredAddresses_ cfg) /\
           timeout = monitorSocketTimeout_ cfg
       | _ => True
       end)
    (events (run ops s)).
Proof.
  eapply Forall_impl; [apply run_alphabet|].
  intros e He. destruct He; simpl; auto.
Qed.

(** X8: whatever runs on the monitor, the only counters it increments are
    the probe success counter and probe failure counters (two disjoint
    families of keys), and every gauge it sets lies under the monitor's
    stat prefix. *)
Theorem stat_keys_of_the_monitor (ops : list Op) (s : State) :
  Forall
    (fun e =>
       match e with
       | EvIncrementSumStat key =>
           (key = probeSuccessKey /\
            String.prefix probeFailedPrefix key = false) \/
           (String.prefix probeFailedPrefix key = true /\
            key <> probeSuccessKey)
       | EvSetAvgStat key _ => String.prefix statPathPrefix key = true
       | _ => True
       end)
    (events (run ops s)).
Proof.
  eapply Forall_impl; [apply run_alphabet|].
  intros e He. destruct He; simpl; auto.
  - right. split; [apply prefix_app | apply failed_key_not_success].
  - apply prefix_app.
Qed.

(** X9: over the whole life of a monitor, the root mode is only ever set to
    0 or to [setRootModeIfGate_], and never when [setRootModeIfGate_] is 0;
    [setGatewayStatus] is never called without a routing engine. *)
Theorem root_mode_and_gateway_status_calls (ops : list Op) (s : State) :
  Forall
    (fun e =>
       match e with
       | EvSetRootMode mode =>
           mode = 0%Z \/ mode = setRootModeIfGate_ cfg
       | _ => True
       end)
    (events (run ops s)) /\
  (setRootModeIfGate_ cfg = 0%Z ->
   List.filter isRootMode (events (run ops s)) = []) /\
  (routing_ cfg = false ->
   List.filter isGatewayStatus (events (run ops s)) = []).
Proof.
  pose proof (run_alphabet ops s) as Hall.
  repeat split.
  - eapply Forall_impl; [exact Hall|].
    intros e He. destruct He; simpl; auto.
  - intros H0. apply Forall_filter_nil.
    eapply Forall_impl; [exact Hall|].
    intros e He. destruct He; simpl; auto. contradiction.
  - intros Hr. apply Forall_filter_nil.
    eapply Forall_impl; [exact Hall|].
    intros e He. destruct He; simpl; auto. congruence.
Qed.

(** *** Who changes the monitor's state *)

Lemma callDampener_state (f : D -> D * list Hook) (s : State) :
  stateOf (callDampener f s) =
    {| isGatewayActive_ := isGatewayActive_ s;
       dampener_ := fst (f (dampener_ s));
       connects := connects s |}.
Proof.
  unfold callDampener. destruct (f (dampener_ s)) as [d hs].
  apply runHooks_state.
Qed.

(** X10: [isGatewayActive_] changes only in a connectivity check, which
    sets it to the outcome of its robust probe; probing by itself, the stat
    setter, the dampener hooks, advertising, withdrawing and the dampener's
    timers leave it alone.  The dampener is touched only by a check and by
    its own timers. *)
Theorem only_checks_change_gateway_activity (o : Op) (s : State) :
  isGatewayActive_ (stateOf (step o s)) =
    match o with
    | OpCheckRoutesAndAdvertise | OpTimerCallback =>
        result (probeWanConnectivityRobustly s)
    | _ => isGatewayActive_ s
    end /\
  match o with
  | OpCheckRoutesAndAdvertise | OpTimerCallback | OpDampenerTimer => True
  | _ => dampener_ (stateOf (step o s)) = dampener_ s
  end.
Proof.
  destruct o; cbn [step].
  - destruct (probeWanConnectivityRobustly_frame s) as [Ha Hd].
    unfold bind, ret, stateOf in *.
    now destruct (probeWanConnectivityRobustly s) as [[b s1] e1].
  - destruct (probeWanConnectivity_frame s) as [Ha Hd].
    unfold bind, ret, stateOf in *.
    now destruct (probeWanConnectivity s) as [[b s1] e1].
  - now split.
  - now rewrite dampen_eq.
  - now rewrite undampen_eq.
  - split; [apply check_active_after | exact I].
  - now rewrite advertiseDefaultRoute_eq.
  - now rewrite withdrawDefaultRoute_eq.
  - rewrite timerCallback_eq. split; [apply check_active_after | exact I].
  - rewrite callDampener_state. now split.
Qed.

(** X11: while the gateway is inactive, nothing the dampener does (a flap
    or one of its timers, with whatever hooks it invokes) results in a
    root-mode, gateway-status or "is_gateway" call: the hooks reduce to
    their [setStat] calls. *)
Theorem dampener_is_harmless_while_inactive
    (f : D -> D * list Hook) (s : State) :
  isGatewayActive_ s = false ->
  events (callDampener f s) = hookStatEvents (snd (f (dampener_ s))) /\
  List.filter isRouteEvent (events (callDampener f s)) = [].
Proof.
  intros Hin. unfold callDampener.
  destruct (f (dampener_ s)) as [d hs]. cbn [snd].
  rewrite runHooks_inactive by exact Hin. unfold events. cbn [snd].
  split; [reflexivity | apply filter_route_hookStatEvents].
Qed.

(** *** More tries, more addresses *)

Lemma robustLoop_more_tries (n m : nat) :
  forall s : State,
    result (robustLoop n s) = true ->
    robustLoop (n + m) s = robustLoop n s.
Proof.
  induction n as [|n IH]; intros s Hok; [discriminate Hok|].
  cbn [robustLoop Nat.add] in *. unfold bind in *.
  destruct (probeWanConnectivity s) as [[ok s1] e1].
  destruct ok; [reflexivity|].
  rewrite IH; [reflexivity|].
  unfold result in *. now destruct (robustLoop n s1) as [[b s2] e2].
Qed.

Lemma connectLoop_more_addresses (addrs more : list SocketAddress) :
  forall (res : Result) (s : State),
    snd (result (connectLoop addrs res s)) = true ->
    connectLoop (addrs ++ more) res s = connectLoop addrs res s.
Proof.
  induction addrs as [|a rest IH]; intros res s Hok; [discriminate Hok|].
  cbn [connectLoop app] in *. unfold bind, socketConnect in *.
  destruct (success (net (connects s) (monitoredInterface_ cfg) a
                         (monitorSocketTimeout_ cfg))); [reflexivity|].
  rewrite IH; [reflexivity|].
  unfold result in *.
  now destruct (connectLoop rest _ _) as [[rc s2] e2].
Qed.

(** X12: a robust probe that succeeds with [n] tries does exactly the same,
    connect for connect, with any larger number of tries; and a round over
    the addresses that succeeds does exactly the same when further
    addresses are appended to the list. *)
Theorem more_tries_or_addresses_change_nothing_after_success
    (n m : nat) (addrs more : list SocketAddress) (res : Result)
    (s : State) :
  (result (robustLoop n s) = true ->
   robustLoop (n + m) s = robustLoop n s) /\
  (snd (result (connectLoop addrs res s)) = true ->
   connectLoop (addrs ++ more) res s = connectLoop addrs res s).
Proof.
  split; [apply robustLoop_more_tries | apply connectLoop_more_addresses].
Qed.

End Monitor.

(** ** The properties on the sample configurations *)

(** Scenario S5 ([cfgS5], [netS5]), started inactive with the S4 dampener
    one flap below its limit: the third probe is the first to succeed, so
    the check increments the success counter once and failure counters
    twice. *)
Lemma probe_increments_one_stat_S5 :
  let t :=
    checkRoutesAndAdvertise RouteDampener.Dampener RouteDampener.isDampened
      flapNow netS5 emptyResult cfgS5
      (Build_State _ false oneFlapAway 0) in
  length (List.filter isProbeSuccessIncrement (events _ t)) = 1 /\
  length (List.filter isProbeFailureIncrement (events _ t)) = 2.
Proof.
  apply (proj2 (probe_increments_one_stat RouteDampener.Dampener
                  RouteDampener.isDampened flapNow netS5 emptyResult cfgS5
                  (Build_State _ false oneFlapAway 0)) 3).
  - simpl. lia.
  - vm_compute. reflexivity.
  - intros [|[|j]] Hj; [vm_compute; reflexivity | vm_compute; reflexivity |].
    simpl in Hj. lia.
Defined.

(** The same check: the flap that takes the dampener to its suppress limit
    runs [dampen()] to no effect, and the check ends active, suppressed and
    with the default route advertised. *)
Lemma flap_during_activation_S5 :
  let s0 := Build_State RouteDampener.Dampener false oneFlapAway 0 in
  let t :=
    checkRoutesAndAdvertise RouteDampener.Dampener RouteDampener.isDampened
      flapNow netS5 emptyResult cfgS5 s0 in
  snd (flapNow oneFlapAway) = [CallDampen] /\
  drop 9 (events _ t) =
    [EvWriteDebugStat "is_gateway" "true"; EvSetRootMode 4;
     EvSetGatewayStatus true; EvFlap] /\
  isGatewayActive_ _ (stateOf _ t) = true /\
  RouteDampener.isDampened (dampener_ _ (stateOf _ t)) = true.
Proof.
  cbv zeta.
  pose proof (flap_during_activation_does_not_withdraw
                RouteDampener.Dampener RouteDampener.isDampened flapNow
                netS5 emptyResult cfgS5
                (Build_State _ false oneFlapAway 0)
                eq_refl eq_refl eq_refl eq_refl)
    as (_ & _ & _ & _ & Hactive & Hdampened).
  split; [reflexivity|]. split; [vm_compute; reflexivity|].
  split; [exact Hactive | exact Hdampened].
Defined.

(** With no tries configured nothing is probed, and with no address a probe
    fails on the spot under the key of the default-constructed result. *)
Lemma probe_degenerate_configurations_witness :
  let s0 := Build_State RouteDampener.Dampener false oneFlapAway 0 in
  probeWanConnectivityRobustly _ netS5 emptyResult cfgDegenerate s0
    = (false, s0, []) /\
  probeWanConnectivity _ netS5 emptyResult cfgDegenerate s0
    = (false, s0, [EvIncrementSumStat (probeFailedPrefix +:+ EmptyString)]).
Proof.
  cbv zeta.
  destruct (probe_degenerate_configurations RouteDampener.Dampener netS5
              emptyResult cfgDegenerate
              (Build_State _ false oneFlapAway 0)) as [Hrobust Hprobe].
  split; [exact (Hrobust eq_refl) | exact (Hprobe eq_refl)].
Defined.



(** C6, as the design document states it, fails on a node without a routing
    engine: [advertiseDefaultRoute] and [withdrawDefaultRoute] set the root
    mode and make no [setGatewayStatus] call. *)
Lemma advertise_without_routing_engine :
  let s0 := Build_State RouteDampener.Dampener false oneFlapAway 0 in
  advertiseDefaultRoute _ cfgNoRouting s0 = (tt, s0, [EvSetRootMode 4]) /\
  withdrawDefaultRoute _ cfgNoRouting s0 = (tt, s0, [EvSetRootMode 0]) /\
  ~ In (EvSetGatewayStatus true)
       (events _ (advertiseDefaultRoute _ cfgNoRouting s0)) /\
  ~ In (EvSetGatewayStatus false)
       (events _ (withdrawDefaultRoute _ cfgNoRouting s0)).
Proof.
  cbv zeta. repeat split; try reflexivity;
    intros [Hin | []]; discriminate Hin.
Qed.

(** Scenario S5 end to end. *)
Example scenario_S5 :
  checkRoutesAndAdvertise RouteDampener.Dampener RouteDampener.isDampened
    flapNow netS5 emptyResult cfgS5 (Build_State _ false oneFlapAway 0)
  = (tt,
     Build_State _ true
       {| RouteDampener.fom := 2000; RouteDampener.suppressed := true |} 6,
     [EvConnect "eth0" addrA 5; EvConnect "eth0" addrB 5;
      EvIncrementSumStat (probeFailedPrefix +:+ "refused");
      EvConnect "eth0" addrA 5; EvConnect "eth0" addrB 5;
      EvIncrementSumStat (probeFailedPrefix +:+ "refused");
      EvConnect "eth0" addrA 5; EvConnect "eth0" addrB 5;
      EvIncrementSumStat probeSuccessKey;
      EvWriteDebugStat "is_gateway" "true"; EvSetRootMode 4;
      EvSetGatewayStatus true; EvFlap]).
Proof. vm_compute. reflexivity. Qed.

(** A check on a reachable network under the suppressed S4 dampener. *)
Lemma suppressed_check_witness :
  let t :=
    checkRoutesAndAdvertise RouteDampener.Dampener RouteDampener.isDampened
      flapNow netUp emptyResult cfgS5 (Build_State _ false suppressedS4 0) in
  List.filter isRouteEvent (events _ t) = [] /\
  isGatewayActive_ _ (stateOf _ t) = true.
Proof.
  cbv zeta.
  apply (suppressed_check_makes_no_route_call RouteDampener.Dampener
           RouteDampener.isDampened flapNow netUp emptyResult cfgS5
           (Build_State _ false suppressedS4 0)); reflexivity.
Defined.

(** A bare node (no root mode to set, no routing engine) running a check, a
    [dampen()] and an [advertiseDefaultRoute()]. *)
Lemma root_mode_and_gateway_status_witness :
  let evs :=
    events _ (run _ RouteDampener.isDampened flapNow reuseCheckNow netUp
                  emptyResult cfgBare
                  [OpTimerCallback; OpDampen; OpAdvertiseDefaultRoute]
                  (Build_State _ false oneFlapAway 0)) in
  List.filter isRootMode evs = [] /\ List.filter isGatewayStatus evs = [].
Proof.
  cbv zeta.
  destruct (root_mode_and_gateway_status_calls RouteDampener.Dampener
              RouteDampener.isDampened flapNow reuseCheckNow netUp
              emptyResult cfgBare
              [OpTimerCallback; OpDampen; OpAdvertiseDefaultRoute]
              (Build_State _ false oneFlapAway 0)) as (_ & Hroot & Hgw).
  split; [apply Hroot | apply Hgw]; reflexivity.
Defined.

(** The reuse check of a suppressed dampener that has decayed below its
    reuse limit, on an inactive gateway: [undampen()] runs and does
    nothing. *)
Lemma dampener_is_harmless_witness :
  let s0 :=
    Build_State RouteDampener.Dampener false
      {| RouteDampener.fom := 400; RouteDampener.suppressed := true |} 0 in
  snd (reuseCheckNow (dampener_ _ s0)) = [CallUndampen] /\
  events _ (callDampener _ cfgS5 reuseCheckNow s0) = [] /\
  List.filter isRouteEvent (events _ (callDampener _ cfgS5 reuseCheckNow s0))
    = [].
Proof.
  cbv zeta. split; [reflexivity|].
  apply (dampener_is_harmless_while_inactive RouteDampener.Dampener cfgS5
           reuseCheckNow
           (Build_State _ false
              {| RouteDampener.fom := 400;
                 RouteDampener.suppressed := true |} 0)).
  reflexivity.
Defined.

(** Scenario S5 with five tries instead of three, and its third round with
    a third address appended. *)
Lemma more_tries_or_addresses_witness :
  let s0 := Build_State RouteDampener.Dampener false oneFlapAway 0 in
  let s4 := Build_State RouteDampener.Dampener false oneFlapAway 4 in
  robustLoop _ netS5 emptyResult cfgS5 (3 + 2) s0
    = robustLoop _ netS5 emptyResult cfgS5 3 s0 /\
  connectLoop _ netS5 cfgS5 ([addrA; addrB] ++ [addrA]) emptyResult s4
    = connectLoop _ netS5 cfgS5 [addrA; addrB] emptyResult s4.
Proof.
  cbv zeta.
  destruct (more_tries_or_addresses_change_nothing_after_success
              RouteDampener.Dampener netS5 emptyResult cfgS5 3 2
              [addrA; addrB] [addrA] emptyResult
              (Build_State _ false oneFlapAway 0)) as [Htries _].
  destruct (more_tries_or_addresses_change_nothing_after_success
              RouteDampener.Dampener netS5 emptyResult cfgS5 3 2
              [addrA; addrB] [addrA] emptyResult
              (Build_State _ false oneFlapAway 4)) as [_ Haddrs].
  split; [apply Htries | apply Haddrs]; reflexivity.
Defined.

End GatewayConnectivityMonitor.

(** * Properties of mesh paths and of the path dump *)

Section MeshPathProperties.

Import Routing.

Open Scope Z_scope.

(** C8: a freshly constructed mesh path, also as [getOrInsert] yields it
    for an unknown address, has zero sequence number, metrics and hop count,
    is neither root nor gate, and expires at the time of its creation: it
    is not expired at that instant, and is expired at any later one. *)
Theorem fresh_mesh_path (now : time_point) (mac : MacAddress) (r : State) :
  let p := newMeshPath now mac in
  (dst p = mac /\ sn p = 0 /\ metric p = 0 /\ nextHopMetric p = 0 /\
   hopCount p = 0 /\ isRoot p = false /\ isGate p = false /\
   expTime p = now) /\
  expired now p = false /\
  (forall later, expired later p = (now <? later)) /\
  (forall later, now < later -> expired later p = true) /\
  (meshPaths_ r !! mac = None ->
   fst (getOrInsert now mac r) = p /\
   meshPaths_ (snd (getOrInsert now mac r)) !! mac = Some p).
Proof.
  cbv zeta. unfold expired. cbn [expTime newMeshPath].
  repeat split; try reflexivity.
  - rewrite Z.gtb_ltb. apply Z.ltb_irrefl.
  - intros later. apply Z.gtb_ltb.
  - intros later Hlater. rewrite Z.gtb_ltb. now apply Z.ltb_lt.
  - unfold getOrInsert. now rewrite H.
  - unfold getOrInsert. rewrite H. cbn [snd meshPaths_].
    apply lookup_insert_eq.
Qed.

(** A path created at 5 ns in an empty table. *)
Lemma fresh_mesh_path_witness :
  let p := newMeshPath 5 {| u64NBO := 2 |} in
  expired 6 p = true /\
  fst (getOrInsert 5 {| u64NBO := 2 |} {| meshPaths_ := ∅ |}) = p /\
  meshPaths_ (snd (getOrInsert 5 {| u64NBO := 2 |} {| meshPaths_ := ∅ |}))
    !! {| u64NBO := 2 |} = Some p.
Proof.
  cbv zeta.
  destruct (fresh_mesh_path 5 {| u64NBO := 2 |} {| meshPaths_ := ∅ |})
    as (_ & _ & _ & Hlater & Hinsert).
  split; [apply Hlater; lia|].
  apply Hinsert. apply lookup_empty.
Defined.

Import MeshServiceHandler.

(** The rows appended by [dumpMpath]: one per entry of the snapshot, in
    iteration order, each with its own clock reading. *)
Lemma dumpLoop_rows (clock : nat -> time_point)
    (mpaths : list (MacAddress * MeshPath)) :
  forall (i : nat) (ret : list thrift.MpathEntry),
    dumpLoop clock i mpaths ret =
      ret ++ imap (fun j it => mkEntry (clock (i + j)%nat) it) mpaths.
Proof.
  induction mpaths as [|it rest IH]; intros i ret; simpl.
  - now rewrite app_nil_r.
  - rewrite IH, <- app_assoc. simpl. rewrite Nat.add_0_r.
    do 2 f_equal. apply imap_ext. intros j x _. simpl.
    f_equal. f_equal. lia.
Qed.

Lemma dumpMpath_rows (r : State) (clock : nat -> time_point)
    (ret : list thrift.MpathEntry) :
  dumpMpath (Some r) clock ret =
    ret ++ imap (fun j it => mkEntry (clock j) it)
                (map_to_list (meshPaths_ r)).
Proof. unfold dumpMpath, dumpMpaths. now rewrite dumpLoop_rows. Qed.

(** For a deadline that is not in the past the argument is the remaining
    time in whole milliseconds. *)
Lemma expTimeArgument_future (exp now : time_point) :
  0 <= exp - now < 2 ^ 63 ->
  expTimeArgument exp now = Z.max 0 ((exp - now) ÷ 1000000).
Proof.
  intros Hd. unfold expTimeArgument, to_uint64, to_milliseconds.
  rewrite Z.quot_div_nonneg by lia.
  assert (0 <= (exp - now) / 1000000 < 2 ^ 64).
  { split; [apply Z.div_pos; lia|].
    apply Z.div_lt_upper_bound; lia. }
  rewrite Z.mod_0_l by lia. rewrite Z.mod_small by lia. reflexivity.
Qed.

(** For a deadline at least a millisecond in the past the conversion to
    [uint64_t] wraps before [std::max] sees the value: the argument is
    [2^64 - (elapsed milliseconds)], and read back as a signed 64-bit
    integer it is the negative difference; in neither reading it is 0. *)
Lemma expTimeArgument_past (exp now : time_point) :
  - 2 ^ 63 <= exp - now <= - 1000000 ->
  expTimeArgument exp now = 2 ^ 64 - (now - exp) / 1000000 /\
  2 ^ 63 < expTimeArgument exp now /\
  to_int64 (expTimeArgument exp now) = - ((now - exp) / 1000000) /\
  to_int64 (expTimeArgument exp now) < 0.
Proof.
  intros Hd. unfold expTimeArgument, to_uint64, to_milliseconds.
  replace (exp - now) with (- (now - exp)) by lia.
  rewrite Z.quot_opp_l by lia.
  rewrite Z.quot_div_nonneg by lia.
  set (ms := (now - exp) / 1000000).
  assert (Hms : 1 <= ms < 2 ^ 63).
  { unfold ms. split.
    - apply Z.div_le_lower_bound; lia.
    - apply Z.div_lt_upper_bound; lia. }
  rewrite Z.mod_0_l by lia.
  assert (Hwrap : (- ms) mod 2 ^ 64 = 2 ^ 64 - ms).
  { symmetry. apply (Z.mod_unique _ _ (-1)); lia. }
  rewrite Hwrap. rewrite Z.max_r by lia.
  assert (Hback : to_int64 (2 ^ 64 - ms) = - ms).
  { unfold to_int64.
    replace (2 ^ 64 - ms + 2 ^ 63) with (2 ^ 63 - ms + 1 * 2 ^ 64) by lia.
    rewrite Z.mod_add by lia. rewrite Z.mod_small by lia. lia. }
  rewrite Hback. repeat split; lia.
Qed.

(** C1 fails on the code: for the entry of [staleTable], whose deadline
    passed 5 ms before the dump, the row carries 2^64 - 5 in its
    expiry field, where the design document promises 0. *)
Theorem dumpMpath_expired_entry_wraps :
  dumpMpath (Some staleTable) staleClock [] =
    [ {| thrift.dst := 2;
         thrift.nextHop := 3;
         thrift.sn := 7;
         thrift.metric := 10;
         thrift.expTimeRemainingMs := 18446744073709551611;
         thrift.nextHopMetric := 10;
         thrift.hopCount := 1;
         thrift.isRoot := false;
         thrift.isGate := true |} ] /\
  Z.max 0 (to_milliseconds (expTime stalePath - staleClock 0%nat)) = 0.
Proof.
  split; [|reflexivity].
  rewrite dumpMpath_rows. unfold staleTable. cbn [meshPaths_].
  rewrite map_to_list_singleton. reflexivity.
Qed.

(** ** Further properties of mesh paths and of the handler *)

(** X13: the hand-written copy constructor of [MeshPath] copies every
    member: a copy equals its original, and in particular keeps its expiry
    time (it is not reset to the time of copying), so a copy is expired
    exactly when the original is. *)
Theorem copy_preserves_mesh_path (p : MeshPath) (now : time_point) :
  copyMeshPath p = p /\
  expTime (copyMeshPath p) = expTime p /\
  expired now (copyMeshPath p) = expired now p.
Proof. now destruct p. Qed.

(** X14: [dumpMpath] without a routing engine leaves the output untouched;
    with one it keeps what the output held and appends exactly one row per
    entry of the path table. *)
Theorem dumpMpath_appends_one_row_per_path
    (routing_ : option State) (clock : nat -> time_point)
    (ret : list thrift.MpathEntry) :
  match routing_ with
  | None => dumpMpath None clock ret = ret
  | Some r =>
      take (length ret) (dumpMpath (Some r) clock ret) = ret /\
      length (dumpMpath (Some r) clock ret)
      = (length ret + size (meshPaths_ r))%nat
  end.
Proof.
  destruct routing_ as [r|]; [|reflexivity].
  rewrite dumpMpath_rows. split.
  - apply take_app_length.
  - now rewrite length_app, length_imap, length_map_to_list.
Qed.



(** X16: no two rows of a dump have the same destination. *)
Theorem dumpMpath_destinations_distinct
    (r : State) (clock : nat -> time_point) :
  NoDup (thrift.dst <$> dumpMpath (Some r) clock []).
Proof.
  rewrite dumpMpath_rows. cbn [app].
  assert (Heq : thrift.dst <$> imap (fun j it => mkEntry (clock j) it)
                                    (map_to_list (meshPaths_ r))
                = u64NBO <$> (map_to_list (meshPaths_ r)).*1).
  { apply list_eq. intros j.
    rewrite !list_lookup_fmap, list_lookup_imap.
    now destruct (map_to_list (meshPaths_ r) !! j). }
  rewrite Heq. apply NoDup_fmap_2; [|apply NoDup_fst_map_to_list].
  intros [x] [y] Hxy. simpl in Hxy. congruence.
Qed.

(** X17: for a path that is not expired, the expiry field of its row is
    the time left until its deadline in whole milliseconds, rounded down. *)
Theorem dump_reports_remaining_time
    (now : time_point) (it : MacAddress * MeshPath) :
  expired now (snd it) = false ->
  expTime (snd it) - now < 2 ^ 63 ->
  thrift.expTimeRemainingMs (mkEntry now it)
  = (expTime (snd it) - now) / 1000000.
Proof.
  unfold expired. rewrite Z.gtb_ltb. intros Hnot Hrange.
  apply Z.ltb_ge in Hnot. cbn [mkEntry thrift.expTimeRemainingMs].
  rewrite expTimeArgument_future by lia.
  rewrite Z.quot_div_nonneg by lia.
  apply Z.max_r. apply Z.div_pos; lia.
Qed.

(** A path with 2.5 ms left. *)
Lemma dump_reports_remaining_time_witness :
  thrift.expTimeRemainingMs
    (mkEntry 997500000 ({| u64NBO := 2 |}, stalePath)) = 2.
Proof.
  apply (dump_reports_remaining_time 997500000
           ({| u64NBO := 2 |}, stalePath)); [reflexivity|].
  vm_compute. reflexivity.
Defined.

(** X18: for an expired path the value the handler computes for the expiry
    field, a [uint64_t], is 0 only while the path is overdue by less than a
    millisecond and 2^64 minus the whole milliseconds overdue from then on;
    the signed 64-bit field of the row that receives it reads 0 and minus
    the whole milliseconds overdue respectively.  It is never clamped. *)
Theorem dump_of_overdue_path
    (now : time_point) (it : MacAddress * MeshPath) :
  expired now (snd it) = true ->
  - 2 ^ 63 <= expTime (snd it) - now ->
  expTimeArgument (expTime (snd it)) now
  = (if now - expTime (snd it) <? 1000000 then 0
     else 2 ^ 64 - (now - expTime (snd it)) / 1000000) /\
  to_int64 (thrift.expTimeRemainingMs (mkEntry now it))
  = (if now - expTime (snd it) <? 1000000 then 0
     else - ((now - expTime (snd it)) / 1000000)).
Proof.
  unfold expired. rewrite Z.gtb_ltb. intros Hexp Hrange.
  apply Z.ltb_lt in Hexp. cbn [mkEntry thrift.expTimeRemainingMs].
  destruct (now - expTime (snd it) <? 1000000) eqn:Hms.
  - apply Z.ltb_lt in Hms.
    assert (Hzero : expTimeArgument (expTime (snd it)) now = 0).
    { unfold expTimeArgument, to_uint64, to_milliseconds.
      replace (expTime (snd it) - now) with (- (now - expTime (snd it)))
        by lia.
      rewrite Z.quot_opp_l by lia. rewrite Z.quot_small by lia.
      reflexivity. }
    rewrite Hzero. split; reflexivity.
  - apply Z.ltb_ge in Hms.
    destruct (expTimeArgument_past (expTime (snd it)) now)
      as (Harg & _ & Hfield & _); [lia|].
    split; assumption.
Qed.

(** The entry of [staleTable], 5 ms overdue, and the same 0.5 ms overdue. *)
Lemma dump_of_overdue_path_witness :
  expTimeArgument (expTime stalePath) 1005000000 = 18446744073709551611 /\
  to_int64 (thrift.expTimeRemainingMs
              (mkEntry 1005000000 ({| u64NBO := 2 |}, stalePath))) = -5 /\
  to_int64 (thrift.expTimeRemainingMs
              (mkEntry 1000500000 ({| u64NBO := 2 |}, stalePath))) = 0.
Proof.
  destruct (dump_of_overdue_path 1005000000 ({| u64NBO := 2 |}, stalePath))
    as [Harg Hfield]; [reflexivity | vm_compute; discriminate |].
  destruct (dump_of_overdue_path 1000500000 ({| u64NBO := 2 |}, stalePath))
    as [_ Hsmall]; [reflexivity | vm_compute; discriminate |].
  split; [exact Harg|]. split; [exact Hfield | exact Hsmall].
Defined.

(** X19: [dumpStats] keeps what the output held and appends one counter
    per stat, with its key and value, in the order of the stats. *)
Theorem dumpStats_appends_every_counter
    (stats : list (string * Z)) (ret : list thrift.StatCounter) :
  dumpStats stats ret =
    ret ++ map (fun it => {| thrift.key := fst it; thrift.value := snd it |})
               stats.
Proof.
  revert ret. induction stats as [|it rest IH]; intros ret; simpl.
  - now rewrite app_nil_r.
  - now rewrite IH, <- app_assoc.
Qed.

Lemma push_back_all (toString : MacAddress -> string)
    (peers : list MacAddress) :
  forall acc : list string,
    fold_left (fun acc peer => acc ++ [toString peer]) peers acc
    = acc ++ map toString peers.
Proof.
  induction peers as [|peer rest IH]; intros acc; simpl.
  - now rewrite app_nil_r.
  - now rewrite IH, <- app_assoc.
Qed.

(** X20: [getPeers] replaces the output by the peers' addresses as strings,
    in the order netlink reports them (what the output held before is
    dropped); when netlink throws, the output is left untouched and the call
    fails with "error receiving peer list from netlink", whatever the
    message of the exception thrown. *)
Theorem getPeers_result (toString : MacAddress -> string)
    (nlGetPeers : list MacAddress + string)
    (returnVal : list string) (ifName : string) :
  getPeers toString nlGetPeers returnVal ifName =
    match nlGetPeers with
    | inl peers => (map toString peers, None)
    | inr _ =>
        (returnVal,
         Some {| thrift.message := "error receiving peer list from netlink" |})
    end.
Proof.
  unfold getPeers, serviceFunc. destruct nlGetPeers as [peers|what].
  - now rewrite push_back_all.
  - reflexivity.
Qed.

End MeshPathProperties.
